(** * Kiosk agent: dispatch, heartbeat and command-stream loops

    A shallow embedding of [kiosk-os/services/kiosk-agent.py] (class
    [KioskAgent]).  The agent is a set of coroutines over one mutable
    object; here every method is a function in a state-and-exception
    monad over the agent's fields, and everything the agent exchanges
    with the outside (log records, sub-processes, HTTP requests, stream
    frames, sleeps) is appended to a history.  The outside world answers
    each call according to the length of the history at the time of the
    call, so that two calls of the same operation may be answered
    differently. *)

From Stdlib Require Import String Ascii List ZArith Lia Bool Arith.
Import ListNotations.
Local Open Scope string_scope.
Local Open Scope list_scope.
Set Warnings "-register-all".

(** ** Python values *)

(** Floats are kept symbolic: the agent only moves them around. *)
Inductive pyfloat :=
| FloatOfText (text : string)   (* the float written [text] *)
| Thousandths (n : Z).          (* n / 1000.0 *)

(** What [json.loads] and [response.json()] build, and what the telemetry
    snapshot holds.  [JNull] is Python's [None].  A [dict] keeps its keys
    in insertion order. *)
Inductive json :=
| JNull
| JBool (b : bool)
| JInt (z : Z)
| JFloat (x : pyfloat)
| JStr (s : string)
| JArr (items : list json)
| JObj (fields : list (string * json)).

Definition dict := list (string * json).

Module Py.

(** [d.get(key, default)] on a [dict]. *)
Fixpoint lookup (key : string) (d : dict) : option json :=
  match d with
  | [] => None
  | (k, v) :: rest => if String.eqb k key then Some v else lookup key rest
  end.

(** [d[key] = v]: an existing key keeps its place, a new one goes last. *)
Fixpoint store (key : string) (v : json) (d : dict) : dict :=
  match d with
  | [] => [(key, v)]
  | (k, old) :: rest =>
      if String.eqb k key then (k, v) :: rest else (k, old) :: store key v rest
  end.

Definition has_key (key : string) (d : dict) : bool :=
  match lookup key d with Some _ => true | None => false end.

(** [v == 'text'] for a string literal on the right. *)
Definition eq_str (v : json) (text : string) : bool :=
  match v with
  | JStr s => String.eqb s text
  | _ => false
  end.

(** [needle in hay] on two strings. *)
Definition contains (needle hay : string) : bool :=
  match String.index 0 needle hay with Some _ => true | None => false end.

(** [s.split(sep)] for a one-character separator. *)
Fixpoint split_on (sep : ascii) (s : string) : list string :=
  match s with
  | EmptyString => [EmptyString]
  | String c rest =>
      if Ascii.eqb c sep then EmptyString :: split_on sep rest
      else match split_on sep rest with
           | [] => [String c EmptyString]
           | hd :: tl => String c hd :: tl
           end
  end.

(** [c.isspace()] on the ASCII range. *)
Definition is_space (c : ascii) : bool :=
  let n := nat_of_ascii c in
  (((9 <=? n) && (n <=? 13)) || ((28 <=? n) && (n <=? 32)))%nat.

Fixpoint lstrip (s : string) : string :=
  match s with
  | EmptyString => EmptyString
  | String c rest => if is_space c then lstrip rest else s
  end.

Fixpoint rstrip (s : string) : string :=
  match s with
  | EmptyString => EmptyString
  | String c rest =>
      match rstrip rest with
      | EmptyString => if is_space c then EmptyString else String c EmptyString
      | kept => String c kept
      end
  end.

Definition strip (s : string) : string := rstrip (lstrip s).

(** [s.split()]: the maximal runs of non-blank characters. *)
Fixpoint words_from (cur : string) (s : string) : list string :=
  match s with
  | EmptyString => match cur with EmptyString => [] | _ => [cur] end
  | String c rest =>
      if is_space c
      then match cur with
           | EmptyString => words_from EmptyString rest
           | _ => cur :: words_from EmptyString rest
           end
      else words_from (cur ++ String c EmptyString) rest
  end.

Definition split (s : string) : list string := words_from EmptyString s.

(** [s.replace(old, new)] for a non-empty [old]: occurrences are replaced
    from the left and do not overlap.  [skip] counts the characters of
    the occurrence just replaced that are still to be passed over. *)
Fixpoint replace_from (old new : string) (skip : nat) (s : string) : string :=
  match s with
  | EmptyString => EmptyString
  | String c rest =>
      match skip with
      | S k => replace_from old new k rest
      | O =>
          if String.prefix old s
          then new ++ replace_from old new (String.length old - 1) rest
          else String c (replace_from old new 0 rest)
      end
  end.

Definition replace (old new s : string) : string := replace_from old new 0 s.

(** Truth value of a string in [if s:]. *)
Definition truthy (s : string) : bool :=
  match s with EmptyString => false | _ => true end.

End Py.

(** ** Exceptions and outcomes *)

(** The classes below [Exception] that the agent can meet. *)
Inductive error :=
| AttributeError      (* [x.get] or [x.send] on a value that has no such method *)
| TypeError           (* iteration, [in] or indexing on the wrong kind of value *)
| KeyError
| IndexError
| ValueError
| OverflowError       (* an integer too large to convert to a float *)
| JSONDecodeError
| ConfigError         (* configparser: NoSectionError, NoOptionError *)
| InterpolationError  (* configparser: a value that cannot be interpolated *)
| OSError             (* file, process and socket failures *)
| ClientError         (* aiohttp transport and content errors *)
| TimeoutError
| ConnectionClosed.   (* websockets: the stream broke *)

(** What a [raise] can carry.  [except Exception] catches [Exc _] only:
    [asyncio.CancelledError], [KeyboardInterrupt] and [SystemExit] derive
    from [BaseException]. *)
Inductive exn :=
| Exc (e : error)
| CancelledError
| KeyboardInterrupt
| SystemExit.

(** A call returns, raises, or never comes back. *)
Inductive outcome (A : Type) :=
| Ret (a : A)
| Raise (x : exn)
| Blocks.
Arguments Ret {A} a.
Arguments Raise {A} x.
Arguments Blocks {A}.

(** Host queries made while collecting telemetry either give a value or
    fail with an error. *)
Definition attempt (A : Type) := (error + A)%type.

(** ** The monad: mutable state of type [S], exceptions, blocking *)

Definition prog (S A : Type) := S -> outcome A * S.

Definition ret {S A} (a : A) : prog S A := fun s => (Ret a, s).

Definition bind {S A B} (m : prog S A) (k : A -> prog S B) : prog S B :=
  fun s =>
    match m s with
    | (Ret a, s') => k a s'
    | (Raise x, s') => (Raise x, s')
    | (Blocks, s') => (Blocks, s')
    end.

Definition raise {S A} (e : error) : prog S A := fun s => (Raise (Exc e), s).

Definition lift {S A} (r : attempt A) : prog S A :=
  match r with
  | inl e => raise e
  | inr a => ret a
  end.

(** [try: body except Exception as e: handler e]. *)
Definition try_except {S A} (body : prog S A) (handler : error -> prog S A) : prog S A :=
  fun s =>
    match body s with
    | (Raise (Exc e), s') => handler e s'
    | other => other
    end.

Declare Scope prog_scope.
Delimit Scope prog_scope with prog.
Notation "x <- m ;; k" := (bind m (fun x => k))
  (at level 61, m at next level, right associativity) : prog_scope.
Notation "m ;; k" := (bind m (fun _ => k))
  (at level 61, right associativity) : prog_scope.
Local Open Scope prog_scope.

(** [for x in xs: body x]. *)
Fixpoint for_each {S A} (body : A -> prog S unit) (xs : list A) : prog S unit :=
  match xs with
  | [] => ret tt
  | x :: rest => body x ;; for_each body rest
  end.

(** [xs[i]]. *)
Definition item {S A} (xs : list A) (i : nat) : prog S A :=
  match nth_error xs i with
  | Some a => ret a
  | None => raise IndexError
  end.

(** ** The history of the agent's exchanges with the outside *)

Inductive level := DEBUG | INFO | WARNING | ERROR.

(** The records handed to [self.logger], one constructor per format string
    of the source, with the values that are formatted into it. *)
Inductive message :=
| CollectFailed (e : error)            (* Failed to collect system info: {e} *)
| HeartbeatSent                        (* Heartbeat sent successfully *)
| ResponseFailed (e : error)           (* Failed to process server response: {e} *)
| HeartbeatStatus (status : Z)         (* Heartbeat failed: HTTP {status} *)
| HeartbeatFailed (e : error)          (* Failed to send heartbeat: {e} *)
| ProcessingCommand (kind : json)      (* Processing command: {command_type} *)
| UnknownCommand (kind : json)         (* Unknown command type: {command_type} *)
| CommandFailed (kind : json) (e : error)  (* Failed to process command {type}: {e} *)
| RestartRequested                     (* System restart requested *)
| UpdateRequested                      (* System update requested *)
| Installing (name : json)             (* Installing application: {app_name} *)
| Uninstalling (name : json)           (* Uninstalling application: {app_name} *)
| ConfigureRequested                   (* System configuration update requested *)
| StreamConnected                      (* WebSocket connected *)
| StreamMessageFailed (e : error)      (* Failed to process WebSocket message: {e} *)
| StreamFailed (e : error)             (* WebSocket connection failed: {e} *)
| UnknownStreamMessage (kind : json)   (* Unknown WebSocket message type: {message_type} *)
| HeartbeatLoopError (e : error)       (* Heartbeat loop error: {e} *)
| StreamLoopError (e : error).         (* WebSocket loop error: {e} *)

(** The executor actions, with the argument each is called with. *)
Inductive action :=
| RestartSystem
| UpdateSystem (data : json)
| InstallApplication (data : json)
| UninstallApplication (data : json)
| ConfigureSystem (data : json).

Definition connection := nat.
Definition headers := list (string * string).

Inductive event :=
| Log (l : level) (m : message)
| Dispatch (command : json)       (* [process_commands] takes up one element *)
| Invoke (a : action)             (* an executor action is called *)
| Subprocess (argv : list string) (* subprocess.run(argv) *)
| Post (url : string) (body : dict) (hs : headers)   (* session.post *)
| StreamOpen (url : string) (hs : headers)           (* websockets.connect *)
| StreamSend (c : connection) (payload : json)       (* websocket.send(json.dumps(payload)) *)
| StreamClose (c : connection)    (* leaving [async with websockets.connect] *)
| Sleep (seconds : Z).            (* asyncio.sleep *)

(** ** The outside world *)

(** The host as the telemetry collection sees it during one call. *)
Record host := {
  uname_nodename : string;
  uname_release : string;
  uname_machine : string;
  utcnow_isoformat : string;
  read_text : string -> attempt string;        (* open(path, 'r').read() *)
  disk_usage : string -> attempt (Z * Z * Z);  (* shutil.disk_usage: total, used, free *)
  ip_addr_show : attempt (Z * string);         (* returncode and stdout of [ip addr show] *)
  path_exists : string -> bool;
  py_int : string -> attempt Z;                (* int(text) *)
  py_float : string -> attempt pyfloat         (* float(text) *)
}.

(** An HTTP response: its status and what [await response.json()] does. *)
Record response := {
  status : Z;
  json_body : outcome json
}.

(** A frame read from the stream, by what [json.loads] makes of it. *)
Inductive frame :=
| Garbled (raw : string)      (* json.loads raises *)
| Parsed (value : json).

(** An open stream: its frames in order of arrival, and how the iteration
    ends after the last of them ([Ret]: closed normally, [Raise]: the read
    failed, [Blocks]: no further frame ever comes). *)
Record stream := {
  link : connection;
  inbound : list frame;
  ending : outcome unit
}.

(** The answers of the world; the first argument is the length of the
    history when the call is made. *)
Record world := {
  running_at : nat -> bool;        (* [self.running], set by [run] *)
  host_at : nat -> host;
  subprocess_run : nat -> list string -> outcome unit;
  session_post : nat -> string -> dict -> headers -> outcome response;
  websockets_connect : nat -> string -> headers -> outcome stream;
  websocket_send : nat -> connection -> json -> outcome unit;
  asyncio_sleep : nat -> Z -> outcome unit
}.

(** ** The agent object *)

(** What [self.config.get(section, option)] comes upon: no such section
    or option; a value that the parser cannot interpolate (a [%] that is
    followed neither by [%] nor by a name in brackets, a name that is not
    there, too deep a nesting); or the value, interpolated. *)
Inductive setting :=
| Absent
| Unreadable
| Present (value : string).

(** The [server] section of the configuration file. *)
Record config := {
  server_url : setting;
  server_api_path : setting;
  server_api_key : setting
}.

Record agent := {
  self_config : config;
  self_device_id : string;
  self_session : bool;                   (* [self.session] is set *)
  self_websocket : option connection;    (* [self.websocket] *)
  history : list event
}.

Definition now (s : agent) : nat := length (history s).

Definition record (ev : event) : prog agent unit :=
  fun s =>
    (Ret tt,
     {| self_config := self_config s;
        self_device_id := self_device_id s;
        self_session := self_session s;
        self_websocket := self_websocket s;
        history := history s ++ [ev] |}).

Definition set_websocket (c : connection) : prog agent unit :=
  fun s =>
    (Ret tt,
     {| self_config := self_config s;
        self_device_id := self_device_id s;
        self_session := self_session s;
        self_websocket := Some c;
        history := history s |}).

Definition log (l : level) (m : message) : prog agent unit := record (Log l m).

(** A call to the outside: it is recorded, then answered. *)
Definition call {A} (ev : event) (answer : nat -> outcome A) : prog agent A :=
  fun s => let t := now s in
           match record ev s with
           | (_, s') => (answer t, s')
           end.

(** Reading an attribute of [self]. *)
Definition attribute {A} (field : agent -> A) : prog agent A :=
  fun s => (Ret (field s), s).

(** [self.config.get('server', option)] without a fallback. *)
Definition config_get (field : config -> setting) : prog agent string :=
  fun s => match field (self_config s) with
           | Present v => (Ret v, s)
           | Unreadable => (Raise (Exc InterpolationError), s)
           | Absent => (Raise (Exc ConfigError), s)
           end.

(** [self.config.get('server', option, fallback=...)]: the fallback
    stands in for an option that is not there, not for a value that
    cannot be interpolated. *)
Definition config_get_fallback (field : config -> setting) (fallback : string)
  : prog agent string :=
  fun s => match field (self_config s) with
           | Present v => (Ret v, s)
           | Unreadable => (Raise (Exc InterpolationError), s)
           | Absent => (Ret fallback, s)
           end.

(** An option that is read with a fallback can be read. *)
Definition readable (v : setting) : Prop := v <> Unreadable.

(** ** Telemetry: [_parse_network_interfaces] and [get_system_info] *)

Module Telemetry.

Definition newline : ascii := "010"%char.

(** The dict that [current_interface] holds. *)
Record interface := {
  if_name : string;
  if_state : string;
  if_addresses : list json
}.

Definition interface_json (i : interface) : json :=
  JObj [("name", JStr (if_name i));
        ("state", JStr (if_state i));
        ("addresses", JArr (if_addresses i))].

Definition address (kind addr : string) : json :=
  JObj [("type", JStr kind); ("address", JStr addr)].

Definition add_address (kind : string) (parts : list string) (i : interface)
  : interface :=
  if (2 <=? length parts)%nat
  then {| if_name := if_name i;
          if_state := if_state i;
          if_addresses := if_addresses i ++ [address kind (nth 1 parts "")] |}
  else i.

(** One turn of the loop over the lines; the state is [interfaces] and
    [current_interface]. *)
Definition parse_line (acc : list interface * option interface) (raw : string)
  : list interface * option interface :=
  let line := Py.strip raw in
  let '(interfaces, current) := acc in
  if Py.truthy line && negb (String.prefix " " line)
  then
    let parts := Py.split_on ":"%char line in
    if (2 <=? length parts)%nat
    then
      (match current with
       | Some c => interfaces ++ [c]
       | None => interfaces
       end,
       Some {| if_name := Py.strip (nth 1 parts "");
               if_state := if Py.contains "UP" line then "UP" else "DOWN";
               if_addresses := [] |})
    else acc
  else
    match current with
    | Some c =>
        if String.prefix "inet " line
        then (interfaces, Some (add_address "ipv4" (Py.split line) c))
        else if String.prefix "inet6 " line
        then (interfaces, Some (add_address "ipv6" (Py.split line) c))
        else acc
    | None => acc
    end.

Definition parse_network_interfaces (ip_output : string) : json :=
  let '(interfaces, current) :=
    fold_left parse_line (Py.split_on newline ip_output) ([], None) in
  JArr (map interface_json
            match current with
            | Some c => interfaces ++ [c]
            | None => interfaces
            end).

(** [info[key] = v]. *)
Definition set_item (key : string) (v : json) : prog dict unit :=
  fun info => (Ret tt, Py.store key v info).

Section Collect.
Variable h : host.

(** The loop over the lines of /proc/cpuinfo, left at the first match. *)
Fixpoint scan_cpuinfo (lines : list string) : prog dict unit :=
  match lines with
  | [] => ret tt
  | line :: rest =>
      if String.prefix "model name" line
      then field <- item (Py.split_on ":"%char line) 1 ;;
           set_item "cpu_model" (JStr (Py.strip field))
      else scan_cpuinfo rest
  end.

(** The body of the loop over the lines of /proc/meminfo. *)
Definition scan_meminfo (line : string) : prog dict unit :=
  if String.prefix "MemTotal:" line
  then field <- item (Py.split line) 1 ;;
       kb <- lift (py_int h field) ;;
       set_item "memory_total" (JInt (kb * 1024))
  else if String.prefix "MemAvailable:" line
  then field <- item (Py.split line) 1 ;;
       kb <- lift (py_int h field) ;;
       set_item "memory_available" (JInt (kb * 1024))
  else ret tt.

(** [temp / 1000.0]: the integer is converted to a float first, which
    fails when it rounds to 2^1024 or beyond. *)
Definition thousandth (temp : Z) : attempt pyfloat :=
  if (2 ^ 1024 - 2 ^ 970 <=? Z.abs temp)%Z then inl OverflowError
  else inr (Thousandths temp).

(** The loop over [temp_files], left at the first file that exists. *)
Fixpoint scan_temperature (temp_files : list string) : prog dict unit :=
  match temp_files with
  | [] => ret tt
  | temp_file :: rest =>
      if path_exists h temp_file
      then text <- lift (read_text h temp_file) ;;
           temp <- lift (py_int h (Py.strip text)) ;;
           celsius <- lift (thousandth temp) ;;
           set_item "temperature" (JFloat celsius)
      else scan_temperature rest
  end.

(** The body of the [try] block of [get_system_info]. *)
Definition collect : prog dict unit :=
  (* CPU information *)
  cpu_info <- lift (read_text h "/proc/cpuinfo") ;;
  set_item "cpu_model" (JStr "Unknown") ;;
  scan_cpuinfo (Py.split_on newline cpu_info) ;;
  (* Memory information *)
  mem_info <- lift (read_text h "/proc/meminfo") ;;
  for_each scan_meminfo (Py.split_on newline mem_info) ;;
  (* Disk information *)
  usage <- lift (disk_usage h "/") ;;
  let '(total, used, free) := usage in
  set_item "disk_total" (JInt total) ;;
  set_item "disk_free" (JInt free) ;;
  set_item "disk_used" (JInt used) ;;
  (* Network interfaces *)
  result <- lift (ip_addr_show h) ;;
  (if (fst result =? 0)%Z
   then set_item "network_interfaces" (parse_network_interfaces (snd result))
   else ret tt) ;;
  (* Load average *)
  text <- lift (read_text h "/proc/loadavg") ;;
  let load_avg := Py.split (Py.strip text) in
  f0 <- item load_avg 0 ;;
  one <- lift (py_float h f0) ;;
  f1 <- item load_avg 1 ;;
  five <- lift (py_float h f1) ;;
  f2 <- item load_avg 2 ;;
  fifteen <- lift (py_float h f2) ;;
  set_item "load_average"
    (JObj [("1min", JFloat one); ("5min", JFloat five); ("15min", JFloat fifteen)]) ;;
  (* Temperature (if available) *)
  scan_temperature ["/sys/class/thermal/thermal_zone0/temp";
                    "/sys/class/hwmon/hwmon0/temp1_input"].

End Collect.

(** The five entries [info] starts with. *)
Definition base_info (device_id : string) (h : host) : dict :=
  [("device_id", JStr device_id);
   ("hostname", JStr (uname_nodename h));
   ("kernel", JStr (uname_release h));
   ("architecture", JStr (uname_machine h));
   ("timestamp", JStr (utcnow_isoformat h))].

End Telemetry.

(** ** The methods of [KioskAgent] *)

(** How a loop run for a bounded number of turns stands at the end:
    [Exited] when the loop was left, [Pending] when it is still going
    round after the last turn allowed. *)
Inductive standing := Exited | Pending.

Section Agent.

Variable w : world.

(** [await x] for an answer that is already decided. *)
Definition await {A} (x : outcome A) : prog agent A := fun s => (x, s).

(** [v.get(key, default)]: only a dict has the method. *)
Definition py_get (v : json) (key : string) (default : json) : prog agent json :=
  match v with
  | JObj d => ret (match Py.lookup key d with Some x => x | None => default end)
  | _ => raise AttributeError
  end.

(** [key in v]. *)
Definition py_contains (key : string) (v : json) : prog agent bool :=
  match v with
  | JObj d => ret (Py.has_key key d)
  | JArr items => ret (existsb (fun x => Py.eq_str x key) items)
  | JStr text => ret (Py.contains key text)
  | _ => raise TypeError
  end.

(** [v[key]] for a string key. *)
Definition py_getitem (v : json) (key : string) : prog agent json :=
  match v with
  | JObj d => match Py.lookup key d with
              | Some x => ret x
              | None => raise KeyError
              end
  | _ => raise TypeError
  end.

(** What [for x in v] goes through. *)
Definition py_iter (v : json) : prog agent (list json) :=
  match v with
  | JArr items => ret items
  | JObj d => ret (map (fun kv => JStr (fst kv)) d)
  | JStr text =>
      ret (map (fun c => JStr (String c EmptyString)) (list_ascii_of_string text))
  | _ => raise TypeError
  end.

Definition get_system_info : prog agent dict :=
  fun s =>
    let h := host_at w (now s) in
    match Telemetry.collect h (Telemetry.base_info (self_device_id s) h) with
    | (Ret _, info) => (Ret info, s)
    | (Raise (Exc e), info) => (log ERROR (CollectFailed e) ;; ret info) s
    | (Raise x, _) => (Raise x, s)
    | (Blocks, _) => (Blocks, s)
    end.

(** *** Executor actions *)

Definition restart_system : prog agent unit :=
  log INFO RestartRequested ;;
  call (Subprocess ["sudo"; "systemctl"; "reboot"])
       (fun t => subprocess_run w t ["sudo"; "systemctl"; "reboot"]).

Definition update_system (data : json) : prog agent unit :=
  log INFO UpdateRequested.

Definition install_application (data : json) : prog agent unit :=
  app_name <- py_get data "name" JNull ;;
  app_url <- py_get data "url" JNull ;;
  log INFO (Installing app_name).

Definition uninstall_application (data : json) : prog agent unit :=
  app_name <- py_get data "name" JNull ;;
  log INFO (Uninstalling app_name).

Definition configure_system (data : json) : prog agent unit :=
  log INFO ConfigureRequested.

(** *** Dispatch *)

(** The [if]/[elif] chain on [command_type]. *)
Definition route (command command_type : json) : prog agent unit :=
  if Py.eq_str command_type "restart" then
    record (Invoke RestartSystem) ;; restart_system
  else if Py.eq_str command_type "update" then
    data <- py_get command "data" (JObj []) ;;
    record (Invoke (UpdateSystem data)) ;; update_system data
  else if Py.eq_str command_type "install_app" then
    data <- py_get command "data" (JObj []) ;;
    record (Invoke (InstallApplication data)) ;; install_application data
  else if Py.eq_str command_type "uninstall_app" then
    data <- py_get command "data" (JObj []) ;;
    record (Invoke (UninstallApplication data)) ;; uninstall_application data
  else if Py.eq_str command_type "configure" then
    data <- py_get command "data" (JObj []) ;;
    record (Invoke (ConfigureSystem data)) ;; configure_system data
  else
    log WARNING (UnknownCommand command_type).

(** The body of the loop of [process_commands]: one command. *)
Definition dispatch (command : json) : prog agent unit :=
  record (Dispatch command) ;;
  try_except
    (command_type <- py_get command "type" JNull ;;
     log INFO (ProcessingCommand command_type) ;;
     route command command_type)
    (fun e =>
       kind <- py_get command "type" JNull ;;
       log ERROR (CommandFailed kind e)).

Definition process_commands (commands : json) : prog agent unit :=
  items <- py_iter commands ;;
  for_each dispatch items.

(** *** Heartbeat *)

Definition bearer (api_key : string) : headers :=
  if Py.truthy api_key then [("Authorization", ("Bearer " ++ api_key)%string)] else [].

(** The inner [try] of [send_heartbeat]: the commands that came with
    the response. *)
Definition process_response (response : response) : prog agent unit :=
  try_except
    (response_data <- await (json_body response) ;;
     present <- py_contains "commands" response_data ;;
     if present : bool then
       commands <- py_getitem response_data "commands" ;;
       process_commands commands
     else ret tt)
    (fun e => log ERROR (ResponseFailed e)).

(** The body of [async with self.session.post(...) as response]. *)
Definition on_response (response : response) : prog agent unit :=
  if (status response =? 200)%Z then
    log DEBUG HeartbeatSent ;;
    process_response response
  else
    log ERROR (HeartbeatStatus (status response)).

Definition heartbeat_url (server_url api_path device_id : string) : string :=
  (server_url ++ api_path ++ "/devices/" ++ device_id ++ "/heartbeat")%string.

Definition heartbeat_headers (api_key : string) : headers :=
  [("Content-Type", "application/json"); ("User-Agent", "KioskAgent/1.0")]
    ++ bearer api_key.

Definition send_heartbeat : prog agent unit :=
  session <- attribute self_session ;;
  if negb session then ret tt
  else
    try_except
      (server_url <- config_get server_url ;;
       api_path <- config_get_fallback server_api_path "/api" ;;
       api_key <- config_get_fallback server_api_key "" ;;
       device_id <- attribute self_device_id ;;
       let url := heartbeat_url server_url api_path device_id in
       (* Collect system information *)
       system_info <- get_system_info ;;
       let hs := heartbeat_headers api_key in
       response <- call (Post url system_info hs)
                        (fun t => session_post w t url system_info hs) ;;
       on_response response)
      (fun e => log ERROR (HeartbeatFailed e)).

(** *** Command stream *)

Definition pong : json := JObj [("type", JStr "pong")].

(** [await self.websocket.send(json.dumps(payload))]. *)
Definition send (payload : json) : prog agent unit :=
  websocket <- attribute self_websocket ;;
  match websocket with
  | Some c => call (StreamSend c payload) (fun t => websocket_send w t c payload)
  | None => raise AttributeError
  end.

Definition handle_websocket_message (data : json) : prog agent unit :=
  message_type <- py_get data "type" JNull ;;
  if Py.eq_str message_type "command" then
    command <- py_get data "data" (JObj []) ;;
    process_commands (JArr [command])
  else if Py.eq_str message_type "ping" then
    send pong
  else
    log WARNING (UnknownStreamMessage message_type).

Definition json_loads (message : frame) : prog agent json :=
  match message with
  | Garbled _ => raise JSONDecodeError
  | Parsed value => ret value
  end.

(** The body of [async for message in websocket]. *)
Definition on_message (message : frame) : prog agent unit :=
  try_except
    (data <- json_loads message ;;
     handle_websocket_message data)
    (fun e => log ERROR (StreamMessageFailed e)).

(** [async for message in websocket]: the frames, then the way the
    iteration ends. *)
Definition receive (messages : list frame) (ending : outcome unit)
  : prog agent unit :=
  for_each on_message messages ;; await ending.

(** [async with websockets.connect(...) as websocket: body]: the
    connection is closed when the body is left, however it is left. *)
Definition async_with {A} (c : connection) (body : prog agent A) : prog agent A :=
  fun s =>
    match body s with
    | (Blocks, s') => (Blocks, s')
    | (r, s') => (r, snd (record (StreamClose c) s'))
    end.

Definition websocket_url (server_url device_id : string) : string :=
  (Py.replace "https://" "wss://" (Py.replace "http://" "ws://" server_url)
     ++ "/ws/devices/" ++ device_id)%string.

Definition connect_websocket : prog agent unit :=
  try_except
    (server_url <- config_get server_url ;;
     api_key <- config_get_fallback server_api_key "" ;;
     device_id <- attribute self_device_id ;;
     (* Convert HTTP URL to WebSocket URL *)
     let ws_url := websocket_url server_url device_id in
     let hs := bearer api_key in
     websocket <- call (StreamOpen ws_url hs)
                       (fun t => websockets_connect w t ws_url hs) ;;
     async_with (link websocket)
       (set_websocket (link websocket) ;;
        log INFO StreamConnected ;;
        receive (inbound websocket) (ending websocket)))
    (fun e => log ERROR (StreamFailed e)).

(** *** The two loops *)

Definition sleep (seconds : Z) : prog agent unit :=
  call (Sleep seconds) (fun t => asyncio_sleep w t seconds).

(** [self.running] as the loop reads it. *)
Definition running (s : agent) : bool := running_at w (now s).

(** [while self.running: ...], for at most [turns] turns. *)
Fixpoint heartbeat_loop (interval : Z) (turns : nat) : prog agent standing :=
  match turns with
  | O => ret Pending
  | S n =>
      fun s =>
        if running s then
          match (send_heartbeat ;; sleep interval) s with
          | (Ret _, s1) => heartbeat_loop interval n s1
          | (Raise CancelledError, s1) => (Ret Exited, s1)
          | (Raise (Exc e), s1) =>
              match (log ERROR (HeartbeatLoopError e) ;; sleep interval) s1 with
              | (Ret _, s2) => heartbeat_loop interval n s2
              | (Raise x, s2) => (Raise x, s2)
              | (Blocks, s2) => (Blocks, s2)
              end
          | (Raise x, s1) => (Raise x, s1)
          | (Blocks, s1) => (Blocks, s1)
          end
        else (Ret Exited, s)
  end.

Fixpoint websocket_loop (turns : nat) : prog agent standing :=
  match turns with
  | O => ret Pending
  | S n =>
      fun s =>
        if running s then
          match connect_websocket s with
          | (Ret _, s1) => websocket_loop n s1
          | (Raise CancelledError, s1) => (Ret Exited, s1)
          | (Raise (Exc e), s1) =>
              match (log ERROR (StreamLoopError e) ;; sleep 30) s1 with
              | (Ret _, s2) => websocket_loop n s2
              | (Raise x, s2) => (Raise x, s2)
              | (Blocks, s2) => (Blocks, s2)
              end
          | (Raise x, s1) => (Raise x, s1)
          | (Blocks, s1) => (Blocks, s1)
          end
        else (Ret Exited, s)
  end.

End Agent.

(** ** Reading a history *)

(** The commands taken up by [process_commands], in order. *)
Definition dispatched (evs : list event) : list json :=
  flat_map (fun ev => match ev with Dispatch c => [c] | _ => [] end) evs.

(** The executor actions called, in order. *)
Definition invocations (evs : list event) : list action :=
  flat_map (fun ev => match ev with Invoke a => [a] | _ => [] end) evs.

(** The frames sent on the stream, in order. *)
Definition sends (evs : list event) : list (connection * json) :=
  flat_map (fun ev => match ev with StreamSend c p => [(c, p)] | _ => [] end) evs.

(** The connections closed by the agent. *)
Definition closes (evs : list event) : list connection :=
  flat_map (fun ev => match ev with StreamClose c => [c] | _ => [] end) evs.

(** The sleeps taken, in order. *)
Definition sleeps (evs : list event) : list Z :=
  flat_map (fun ev => match ev with Sleep n => [n] | _ => [] end) evs.

(** The agent [s] after the events [evs]. *)
Definition after (s : agent) (evs : list event) : agent :=
  {| self_config := self_config s;
     self_device_id := self_device_id s;
     self_session := self_session s;
     self_websocket := self_websocket s;
     history := history s ++ evs |}.

Inductive kind :=
| KLog | KDispatch | KInvoke | KSubprocess | KPost | KOpen | KSend | KClose | KSleep.

Definition kind_of (ev : event) : kind :=
  match ev with
  | Log _ _ => KLog
  | Dispatch _ => KDispatch
  | Invoke _ => KInvoke
  | Subprocess _ => KSubprocess
  | Post _ _ _ => KPost
  | StreamOpen _ _ => KOpen
  | StreamSend _ _ => KSend
  | StreamClose _ => KClose
  | Sleep _ => KSleep
  end.

(** [emits allowed m]: whatever [m] does, it leaves the attributes of the
    agent as they are and only adds events of the [allowed] kinds to the
    history. *)
Definition emits {A} (allowed : list kind) (m : prog agent A) : Prop :=
  forall s, exists evs,
    snd (m s) = after s evs
    /\ Forall (fun ev => In (kind_of ev) allowed) evs.

(** [adds allowed m]: the same for the history alone; [m] may change
    [self.websocket]. *)
Definition adds {A} (allowed : list kind) (m : prog agent A) : Prop :=
  forall s, exists evs,
    history (snd (m s)) = history s ++ evs
    /\ Forall (fun ev => In (kind_of ev) allowed) evs.

(** The kinds of event each part of the agent can add. *)
Definition dispatch_kinds : list kind := [KLog; KDispatch; KInvoke; KSubprocess].
Definition heartbeat_kinds : list kind := KPost :: dispatch_kinds.
Definition message_kinds : list kind := KSend :: dispatch_kinds.
Definition stream_kinds : list kind := KOpen :: KClose :: message_kinds.

(** The action that the kind of a command stands for; none for a kind
    that is not recognised. *)
Definition planned (command : json) : list action :=
  match command with
  | JObj fields =>
      let kind := match Py.lookup "type" fields with Some k => k | None => JNull end in
      let data := match Py.lookup "data" fields with Some d => d | None => JObj [] end in
      if Py.eq_str kind "restart" then [RestartSystem]
      else if Py.eq_str kind "update" then [UpdateSystem data]
      else if Py.eq_str kind "install_app" then [InstallApplication data]
      else if Py.eq_str kind "uninstall_app" then [UninstallApplication data]
      else if Py.eq_str kind "configure" then [ConfigureSystem data]
      else []
  | _ => []
  end.

Definition is_mapping (v : json) : bool :=
  match v with JObj _ => true | _ => false end.

(** The five kinds of command that are routed to an action. *)
Definition recognised_kinds : list string :=
  ["restart"; "update"; "install_app"; "uninstall_app"; "configure"].

(** ** The telemetry snapshot: what is to be kept *)

(** The keys [info] is created with. *)
Definition base_keys : list string :=
  ["device_id"; "hostname"; "kernel"; "architecture"; "timestamp"].

(** [gentle m]: [m] leaves the base entries of [info] as they are, and
    it either returns or raises an error. *)
Definition gentle {A} (m : prog dict A) : Prop :=
  forall info,
    (forall k, In k base_keys -> Py.lookup k (snd (m info)) = Py.lookup k info)
    /\ ((exists a, fst (m info) = Ret a) \/ (exists e, fst (m info) = Raise (Exc e))).

(** ** Predicates used in the statements *)

(** A frame the stream loop cannot make sense of: it does not parse, it
    parses to something that is not a mapping, or handling it raises an
    error. *)
Definition malformed (w : world) (message : frame) (s : agent) : Prop :=
  (exists raw, message = Garbled raw)
  \/ (exists v, message = Parsed v /\ is_mapping v = false)
  \/ (exists v e, message = Parsed v
                  /\ fst (handle_websocket_message w v s) = Raise (Exc e)).

(** The moment at which the heartbeat that starts in [s] posts its
    snapshot: once the snapshot is collected. *)
Definition post_time (w : world) (s : agent) : nat :=
  now (snd (get_system_info w s)).

(** The ways a heartbeat request fails: the transport raises, the status
    is not 200, or the body of a 200 response cannot be read as JSON. *)
Inductive failed_reply : outcome response -> Prop :=
| transport_error (e : error) : failed_reply (Raise (Exc e))
| bad_status (resp : response) : status resp <> 200%Z -> failed_reply (Ret resp)
| unreadable_body (resp : response) (e : error) :
    status resp = 200%Z -> json_body resp = Raise (Exc e) -> failed_reply (Ret resp).

(** A 200 response whose body has no [commands], or an empty list of them. *)
Definition without_commands (v : json) : Prop :=
  exists fields,
    v = JObj fields
    /\ (Py.lookup "commands" fields = None
        \/ Py.lookup "commands" fields = Some (JArr [])).

(** The reboot command comes back, with or without an error. *)
Definition responsive (w : world) : Prop :=
  forall t argv,
    subprocess_run w t argv = Ret tt
    \/ exists e, subprocess_run w t argv = Raise (Exc e).

(** What one command of a batch adds to the history. *)
Definition chunk_of (command : json) (chunk : list event) : Prop :=
  dispatched chunk = [command] /\ invocations chunk = planned command.

(** ** Sample inputs *)

(** A host on which every query fails. *)
Definition bare_host : host :=
  {| uname_nodename := "kiosk";
     uname_release := "6.1.0";
     uname_machine := "x86_64";
     utcnow_isoformat := "2024-01-01T00:00:00+00:00";
     read_text := fun _ => inl OSError;
     disk_usage := fun _ => inl OSError;
     ip_addr_show := inl OSError;
     path_exists := fun _ => false;
     py_int := fun _ => inl ValueError;
     py_float := fun _ => inl ValueError |}.

(** A world that always gives the same answers. *)
Definition steady_world (reboot : outcome unit) (posted : outcome response)
  (connected : outcome stream) : world :=
  {| running_at := fun _ => true;
     host_at := fun _ => bare_host;
     subprocess_run := fun _ _ => reboot;
     session_post := fun _ _ _ _ => posted;
     websockets_connect := fun _ _ _ => connected;
     websocket_send := fun _ _ _ => Ret tt;
     asyncio_sleep := fun _ _ => Ret tt |}.

Definition kiosk : agent :=
  {| self_config := {| server_url := Present "http://srv";
                       server_api_path := Absent;
                       server_api_key := Absent |};
     self_device_id := "kiosk-1";
     self_session := true;
     self_websocket := None;
     history := [] |}.

(** The same agent once connection 7 is open. *)
Definition kiosk_online : agent :=
  {| self_config := self_config kiosk;
     self_device_id := self_device_id kiosk;
     self_session := true;
     self_websocket := Some 7%nat;
     history := [] |}.

Definition unreachable : world :=
  steady_world (Ret tt) (Raise (Exc ClientError)) (Raise (Exc OSError)).

Definition no_command : json := JObj [("data", JObj [("x", JInt 1)])].

Definition broken_batch : list json :=
  [JStr "oops"; JObj [("type", JStr "configure"); ("data", JObj [])]].

Definition no_commands_reply : response :=
  {| status := 200; json_body := Ret (JObj []) |}.

Definition idle_server : world :=
  steady_world (Ret tt) (Ret no_commands_reply) (Raise (Exc OSError)).

Definition configure (n : Z) : json :=
  JObj [("type", JStr "configure"); ("data", JObj [("a", JInt n)])].

Definition two_configures : response :=
  {| status := 200;
     json_body := Ret (JObj [("commands", JArr [configure 1; configure 2])]) |}.

Definition configuring_server : world :=
  steady_world (Ret tt) (Ret two_configures) (Raise (Exc OSError)).

Definition ping_message : json := JObj [("type", JStr "ping")].

Definition restart_message : json :=
  JObj [("type", JStr "command"); ("data", JObj [("type", JStr "restart")])].

(** A stream on which a restart command arrives, then a ping. *)
Definition restart_then_ping : stream :=
  {| link := 7%nat;
     inbound := [Parsed restart_message; Parsed ping_message];
     ending := Blocks |}.

(** A world in which the reboot command never returns. *)
Definition stuck_world : world :=
  steady_world Blocks (Raise (Exc ClientError)) (Ret restart_then_ping).


(** ** Device identity: [_generate_device_id] *)

Module Identity.

(** What the generation of an identity consults. *)
Record sources := {
  machine_id_exists : bool;              (* os.path.exists('/etc/machine-id') *)
  machine_id_text : attempt string;      (* open('/etc/machine-id', 'r').read() *)
  ip_link_show : attempt (Z * string);   (* returncode and stdout of [ip link show] *)
  uuid4_text : string                    (* str(uuid.uuid4()) *)
}.

(** [f"kiosk-{text[:8]}"]. *)
Definition kiosk_id (text : string) : string :=
  ("kiosk-" ++ String.substring 0 8 text)%string.

(** [line.split()[1].replace(':', '')]. *)
Definition mac_of_line (line : string) : attempt string :=
  match nth_error (Py.split line) 1 with
  | Some field => inr (Py.replace ":" "" field)
  | None => inl IndexError
  end.

(** The loop over the lines of [ip link show], left at the first line
    that holds [link/ether]. *)
Fixpoint scan_links (lines : list string) : attempt (option string) :=
  match lines with
  | [] => inr None
  | line :: rest =>
      if Py.contains "link/ether" line
      then match mac_of_line line with
           | inr mac => inr (Some (kiosk_id mac))
           | inl e => inl e
           end
      else scan_links rest
  end.

(** The body of the [try] block: an identity, none, or an error. *)
Definition hardware_id (src : sources) : attempt (option string) :=
  if machine_id_exists src then
    match machine_id_text src with
    | inr text => inr (Some (kiosk_id (Py.strip text)))
    | inl e => inl e
    end
  else
    match ip_link_show src with
    | inr (returncode, stdout) =>
        if (returncode =? 0)%Z
        then scan_links (Py.split_on Telemetry.newline stdout)
        else inr None
    | inl e => inl e
    end.

(** The identity, and the errors reported in warnings on the way. *)
Definition generate_device_id (src : sources) : string * list error :=
  match hardware_id src with
  | inr (Some id) => (id, [])
  | inr None => (kiosk_id (uuid4_text src), [])
  | inl e => (kiosk_id (uuid4_text src), [e])
  end.

End Identity.

(** ** Further readers and predicates *)

(** The requests posted, in order. *)
Definition posts (evs : list event) : list (string * dict * headers) :=
  flat_map (fun ev => match ev with Post url body hs => [(url, body, hs)] | _ => [] end)
           evs.

(** The connection attempts, in order. *)
Definition opens (evs : list event) : list (string * headers) :=
  flat_map (fun ev => match ev with StreamOpen url hs => [(url, hs)] | _ => [] end) evs.

(** A frame that is a mapping whose [type] is [ping]. *)
Definition is_ping (message : frame) : bool :=
  match message with
  | Parsed (JObj fields) =>
      Py.eq_str (match Py.lookup "type" fields with Some k => k | None => JNull end)
                "ping"
  | _ => false
  end.

(** [c] is one of the characters of [s]. *)
Definition has_char (c : ascii) (s : string) : bool :=
  existsb (Ascii.eqb c) (list_ascii_of_string s).

(** [needle] is found somewhere in [hay]. *)
Fixpoint occurs (needle hay : string) : bool :=
  match hay with
  | EmptyString => String.prefix needle EmptyString
  | String _ rest => String.prefix needle hay || occurs needle rest
  end.

(** [confined keys m]: [m] leaves every entry of [info] outside [keys]
    as it is. *)
Definition confined {A} (keys : list string) (m : prog dict A) : Prop :=
  forall info k,
    ~ In k keys -> Py.lookup k (snd (m info)) = Py.lookup k info.



(** How many interfaces the loop holds. *)
Definition held (acc : list Telemetry.interface * option Telemetry.interface) : nat :=
  (length (fst acc) + match snd acc with Some _ => 1 | None => 0 end)%nat.

(** The agent [s] with [self.websocket] set to [c]. *)
Definition online (s : agent) (c : connection) : agent :=
  {| self_config := self_config s;
     self_device_id := self_device_id s;
     self_session := self_session s;
     self_websocket := Some c;
     history := history s |}.

(** A value of the server section, or its fallback. *)
Definition configured_or (field : config -> setting) (fallback : string)
  (s : agent) : string :=
  match field (self_config s) with Present v => v | _ => fallback end.

(** More sample inputs. *)

Definition wired_box : Identity.sources :=
  {| Identity.machine_id_exists := false;
     Identity.machine_id_text := inl OSError;
     Identity.ip_link_show :=
       inr (0%Z, "2: eth0: <BROADCAST,UP>" ++ String Telemetry.newline
                 "    link/ether aa:bb:cc:dd:ee:ff brd ff:ff:ff:ff:ff:ff")%string;
     Identity.uuid4_text := "0f8fad5b-d9cb-469f-a165-70867728950e" |}.

(** A world in which nothing is configured to fail and no session is set. *)
Definition offline : agent :=
  {| self_config := self_config kiosk;
     self_device_id := self_device_id kiosk;
     self_session := false;
     self_websocket := None;
     history := [] |}.

(** A world in which the reboot command fails at once. *)
Definition failing_reboot : world :=
  steady_world (Raise (Exc OSError)) (Raise (Exc ClientError)) (Raise (Exc OSError)).

(** A batch in which the first two commands fail. *)
Definition rough_batch : list json :=
  [JObj [("type", JStr "restart")];
   JObj [("type", JStr "install_app"); ("data", JStr "editor")];
   configure 1].

(** A stream with two frames that closes normally. *)
Definition short_stream : stream :=
  {| link := 7%nat;
     inbound := [Parsed ping_message; Garbled "??"];
     ending := Ret tt |}.

Definition serving : world :=
  steady_world (Ret tt) (Raise (Exc ClientError)) (Ret short_stream).

(** A host on which /proc/cpuinfo can be read, and no other file. *)
Definition cpu_only_host : host :=
  {| uname_nodename := "kiosk";
     uname_release := "6.1.0";
     uname_machine := "x86_64";
     utcnow_isoformat := "2024-01-01T00:00:00+00:00";
     read_text := fun path =>
       if String.eqb path "/proc/cpuinfo"
       then inr ("processor : 0" ++ String Telemetry.newline "model name : Test CPU")%string
       else inl OSError;
     disk_usage := fun _ => inr (100, 40, 60)%Z;
     ip_addr_show := inr (0%Z, "1: lo: <LOOPBACK,UP>");
     path_exists := fun _ => false;
     py_int := fun _ => inl ValueError;
     py_float := fun _ => inl ValueError |}.

Definition cpu_only_world : world :=
  {| running_at := fun _ => true;
     host_at := fun _ => cpu_only_host;
     subprocess_run := fun _ _ => Ret tt;
     session_post := fun _ _ _ _ => Raise (Exc ClientError);
     websockets_connect := fun _ _ _ => Raise (Exc OSError);
     websocket_send := fun _ _ _ => Ret tt;
     asyncio_sleep := fun _ _ => Ret tt |}.



(** ** Ground lemmas *)

Lemma after_nil s : after s [] = s.
Proof. destruct s; unfold after; simpl; now rewrite app_nil_r. Qed.

Lemma after_after s evs1 evs2 : after (after s evs1) evs2 = after s (evs1 ++ evs2).
Proof. unfold after; simpl; now rewrite app_assoc. Qed.

Lemma record_after ev s : record ev s = (Ret tt, after s [ev]).
Proof. reflexivity. Qed.

Lemma call_after {A} ev (answer : nat -> outcome A) s :
  call ev answer s = (answer (now s), after s [ev]).
Proof. reflexivity. Qed.

Lemma dispatched_app a b : dispatched (a ++ b) = dispatched a ++ dispatched b.
Proof. apply flat_map_app. Qed.

Lemma invocations_app a b : invocations (a ++ b) = invocations a ++ invocations b.
Proof. apply flat_map_app. Qed.

Lemma sends_app a b : sends (a ++ b) = sends a ++ sends b.
Proof. apply flat_map_app. Qed.

Lemma closes_app a b : closes (a ++ b) = closes a ++ closes b.
Proof. apply flat_map_app. Qed.

Lemma sleeps_app a b : sleeps (a ++ b) = sleeps a ++ sleeps b.
Proof. apply flat_map_app. Qed.

Lemma for_each_app {S A} (body : A -> prog S unit) (xs ys : list A) (s : S) :
  for_each body (xs ++ ys) s = (for_each body xs ;; for_each body ys) s.
Proof.
  revert s. induction xs as [| x rest IH]; intros s; simpl.
  - reflexivity.
  - unfold bind. destruct (body x s) as [[[] | e | ] s1]; auto.
Qed.

(** ** Rules for [emits] *)

Ltac silent := intros ?s; exists []; rewrite after_nil; split; [reflexivity | constructor].

Section EmitsRules.

Context {A B : Type}.
Variable allowed : list kind.

Lemma emits_ret (a : A) : emits allowed (ret a).
Proof. silent. Qed.

Lemma emits_raise (e : error) : emits allowed (@raise agent A e).
Proof. silent. Qed.

Lemma emits_await (x : outcome A) : emits allowed (await x).
Proof. silent. Qed.

Lemma emits_attribute (field : agent -> A) : emits allowed (attribute field).
Proof. silent. Qed.

Lemma emits_bind (m : prog agent A) (k : A -> prog agent B) :
  emits allowed m -> (forall a, emits allowed (k a)) -> emits allowed (bind m k).
Proof.
  intros Hm Hk s. unfold bind.
  destruct (Hm s) as [evs [He Hf]].
  destruct (m s) as [[a | x | ] s1]; simpl in *; subst s1;
    try (exists evs; now auto).
  destruct (Hk a (after s evs)) as [evs2 [He2 Hf2]].
  exists (evs ++ evs2). rewrite He2, after_after. split; auto.
  apply Forall_app; auto.
Qed.

Lemma emits_try_except (body : prog agent A) (handler : error -> prog agent A) :
  emits allowed body -> (forall e, emits allowed (handler e)) ->
  emits allowed (try_except body handler).
Proof.
  intros Hm Hk s. unfold try_except.
  destruct (Hm s) as [evs [He Hf]].
  destruct (body s) as [[a | [e | | | ] | ] s1]; simpl in *; subst s1;
    try (exists evs; now auto).
  destruct (Hk e (after s evs)) as [evs2 [He2 Hf2]].
  exists (evs ++ evs2). rewrite He2, after_after. split; auto.
  apply Forall_app; auto.
Qed.

Lemma emits_record (ev : event) :
  In (kind_of ev) allowed -> emits allowed (record ev).
Proof. intros H s; exists [ev]; simpl; auto. Qed.

Lemma emits_call (ev : event) (answer : nat -> outcome A) :
  In (kind_of ev) allowed -> emits allowed (call ev answer).
Proof. intros H s; exists [ev]; simpl; auto. Qed.

Lemma emits_for_each (body : A -> prog agent unit) (xs : list A) :
  (forall x, emits allowed (body x)) -> emits allowed (for_each body xs).
Proof.
  intros Hb. induction xs as [| x rest IH]; simpl.
  - silent.
  - intros s. unfold bind.
    destruct (Hb x s) as [evs [He Hf]].
    destruct (body x s) as [[a | y | ] s1]; simpl in *; subst s1;
      try (exists evs; now auto).
    destruct (IH (after s evs)) as [evs2 [He2 Hf2]].
    exists (evs ++ evs2). rewrite He2, after_after. split; auto.
    apply Forall_app; auto.
Qed.

End EmitsRules.

Lemma emits_weaken {A} (small large : list kind) (m : prog agent A) :
  incl small large -> emits small m -> emits large m.
Proof.
  intros Hi Hm s. destruct (Hm s) as [evs [He Hf]].
  exists evs; split; auto.
  eapply Forall_impl; [| exact Hf]. intros ev Hin. now apply Hi.
Qed.

Lemma emits_adds {A} (allowed : list kind) (m : prog agent A) :
  emits allowed m -> adds allowed m.
Proof.
  intros Hm s. destruct (Hm s) as [evs [He Hf]].
  exists evs. rewrite He. auto.
Qed.

Lemma emits_log allowed l m : In KLog allowed -> emits allowed (log l m).
Proof. intros H. now apply emits_record. Qed.

Lemma emits_config_get allowed field : emits allowed (config_get field).
Proof.
  intros s; exists []; unfold config_get.
  destruct (field (self_config s)); simpl; rewrite after_nil; auto.
Qed.

Lemma emits_config_get_fallback allowed field fallback :
  emits allowed (config_get_fallback field fallback).
Proof.
  intros s; exists []; unfold config_get_fallback.
  destruct (field (self_config s)); simpl; rewrite after_nil; auto.
Qed.

(** ** What each method can add to the history *)

Ltac kinds_included := intros ?; simpl; tauto.

Ltac kind_absent := simpl; intuition discriminate.

Ltac kinds_listed := repeat (constructor; [simpl; tauto |]); constructor.

Ltac emits_basic :=
  first
    [ apply emits_ret | apply emits_raise | apply emits_await
    | apply emits_config_get | apply emits_config_get_fallback
    | apply emits_attribute
    | apply emits_log; simpl; tauto
    | apply emits_record; simpl; tauto
    | apply emits_call; simpl; tauto ].

Ltac emits_structure :=
  first
    [ apply emits_bind; [| intros ?]
    | apply emits_try_except; [| intros ?]
    | apply emits_for_each; intros ?
    | match goal with
      | |- emits _ (if ?b then _ else _) => destruct b
      | |- emits _ (match ?x with _ => _ end) => destruct x
      end ].

Section EmitsAgent.

Variable w : world.

Lemma emits_py_get allowed v key default : emits allowed (py_get v key default).
Proof. destruct v; simpl; emits_basic. Qed.

Lemma emits_py_contains allowed key v : emits allowed (py_contains key v).
Proof. destruct v; simpl; emits_basic. Qed.

Lemma emits_py_getitem allowed v key : emits allowed (py_getitem v key).
Proof.
  destruct v; simpl; try emits_basic.
  destruct (Py.lookup key fields); emits_basic.
Qed.

Lemma emits_py_iter allowed v : emits allowed (py_iter v).
Proof. destruct v; simpl; emits_basic. Qed.

Lemma emits_get_system_info : emits [KLog] (get_system_info w).
Proof.
  intros s. unfold get_system_info.
  destruct (Telemetry.collect _ _) as [[u | [e | | | ] | ] info]; simpl;
    try (exists []; rewrite after_nil; split; [reflexivity | constructor]).
  exists [Log ERROR (CollectFailed e)]. split; auto.
Qed.

Ltac emits_py :=
  first [ apply emits_py_get | apply emits_py_contains
        | apply emits_py_getitem | apply emits_py_iter ].

Ltac emits_go := repeat first [ emits_basic | emits_py | emits_structure ].

Lemma emits_route command command_type :
  emits dispatch_kinds (route w command command_type).
Proof.
  unfold route, dispatch_kinds, restart_system, update_system,
    install_application, uninstall_application, configure_system.
  emits_go.
Qed.

Lemma emits_dispatch command : emits dispatch_kinds (dispatch w command).
Proof.
  unfold dispatch.
  apply emits_bind; [unfold dispatch_kinds; emits_basic | intros _].
  apply emits_try_except.
  - apply emits_bind; [emits_py | intros kind].
    apply emits_bind; [unfold dispatch_kinds; emits_basic | intros _].
    apply emits_route.
  - intros e. unfold dispatch_kinds. emits_go.
Qed.

Lemma emits_process_commands commands :
  emits dispatch_kinds (process_commands w commands).
Proof.
  unfold process_commands.
  apply emits_bind; [emits_py | intros items].
  apply emits_for_each. apply emits_dispatch.
Qed.

Lemma emits_process_response resp :
  emits heartbeat_kinds (process_response w resp).
Proof.
  unfold process_response.
  apply emits_try_except; [| intros e; unfold heartbeat_kinds; emits_go].
  apply emits_bind; [emits_basic | intros data].
  apply emits_bind; [emits_py | intros present].
  destruct present; [| emits_basic].
  apply emits_bind; [emits_py | intros commands].
  apply (emits_weaken dispatch_kinds); [kinds_included | apply emits_process_commands].
Qed.

Lemma emits_on_response resp : emits heartbeat_kinds (on_response w resp).
Proof.
  unfold on_response.
  destruct (status resp =? 200)%Z; [| unfold heartbeat_kinds; emits_go].
  apply emits_bind; [unfold heartbeat_kinds; emits_basic | intros _].
  apply emits_process_response.
Qed.

Lemma emits_send_heartbeat : emits heartbeat_kinds (send_heartbeat w).
Proof.
  unfold send_heartbeat.
  apply emits_bind; [emits_basic | intros session].
  destruct (negb session); [emits_basic |].
  apply emits_try_except; [| intros e; unfold heartbeat_kinds; emits_go].
  do 4 (apply emits_bind; [emits_basic | intros ?]).
  apply emits_bind;
    [apply (emits_weaken [KLog]); [kinds_included | apply emits_get_system_info] |
     intros info].
  apply emits_bind; [unfold heartbeat_kinds; emits_basic | intros resp].
  apply emits_on_response.
Qed.

Lemma emits_send payload : emits message_kinds (send w payload).
Proof. unfold send, message_kinds. emits_go. Qed.

Lemma emits_handle_websocket_message data :
  emits message_kinds (handle_websocket_message w data).
Proof.
  unfold handle_websocket_message.
  apply emits_bind; [emits_py | intros message_type].
  destruct (Py.eq_str message_type "command").
  - apply emits_bind; [emits_py | intros command].
    apply (emits_weaken dispatch_kinds); [kinds_included | apply emits_process_commands].
  - destruct (Py.eq_str message_type "ping"); [apply emits_send |].
    unfold message_kinds; emits_basic.
Qed.

Lemma emits_on_message message : emits message_kinds (on_message w message).
Proof.
  unfold on_message.
  apply emits_try_except; [| intros e; unfold message_kinds; emits_go].
  apply emits_bind; [destruct message; simpl; emits_basic | intros data].
  apply emits_handle_websocket_message.
Qed.

Lemma emits_receive messages ending :
  emits message_kinds (receive w messages ending).
Proof.
  unfold receive.
  apply emits_bind; [| intros _; emits_basic].
  apply emits_for_each. apply emits_on_message.
Qed.

End EmitsAgent.

(** ** Kinds of event that cannot occur *)

Lemma no_dispatch (allowed : list kind) (evs : list event) :
  Forall (fun ev => In (kind_of ev) allowed) evs ->
  ~ In KDispatch allowed -> dispatched evs = [].
Proof.
  intros Honly Hout. induction Honly as [| ev rest Hev _ IH]; simpl; auto.
  rewrite IH, app_nil_r. destruct ev; simpl in *; auto; contradiction.
Qed.

Lemma no_invocation (allowed : list kind) (evs : list event) :
  Forall (fun ev => In (kind_of ev) allowed) evs ->
  ~ In KInvoke allowed -> invocations evs = [].
Proof.
  intros Honly Hout. induction Honly as [| ev rest Hev _ IH]; simpl; auto.
  rewrite IH, app_nil_r. destruct ev; simpl in *; auto; contradiction.
Qed.

Lemma no_send (allowed : list kind) (evs : list event) :
  Forall (fun ev => In (kind_of ev) allowed) evs ->
  ~ In KSend allowed -> sends evs = [].
Proof.
  intros Honly Hout. induction Honly as [| ev rest Hev _ IH]; simpl; auto.
  rewrite IH, app_nil_r. destruct ev; simpl in *; auto; contradiction.
Qed.

Lemma no_close (allowed : list kind) (evs : list event) :
  Forall (fun ev => In (kind_of ev) allowed) evs ->
  ~ In KClose allowed -> closes evs = [].
Proof.
  intros Honly Hout. induction Honly as [| ev rest Hev _ IH]; simpl; auto.
  rewrite IH, app_nil_r. destruct ev; simpl in *; auto; contradiction.
Qed.

Lemma no_sleep (allowed : list kind) (evs : list event) :
  Forall (fun ev => In (kind_of ev) allowed) evs ->
  ~ In KSleep allowed -> sleeps evs = [].
Proof.
  intros Honly Hout. induction Honly as [| ev rest Hev _ IH]; simpl; auto.
  rewrite IH, app_nil_r. destruct ev; simpl in *; auto; contradiction.
Qed.

Lemma no_post (allowed : list kind) (evs : list event) :
  Forall (fun ev => In (kind_of ev) allowed) evs ->
  ~ In KPost allowed -> posts evs = [].
Proof.
  intros Honly Hout. induction Honly as [| ev rest Hev _ IH]; simpl; auto.
  rewrite IH, app_nil_r. destruct ev; simpl in *; auto; contradiction.
Qed.

Lemma no_open (allowed : list kind) (evs : list event) :
  Forall (fun ev => In (kind_of ev) allowed) evs ->
  ~ In KOpen allowed -> opens evs = [].
Proof.
  intros Honly Hout. induction Honly as [| ev rest Hev _ IH]; simpl; auto.
  rewrite IH, app_nil_r. destruct ev; simpl in *; auto; contradiction.
Qed.

Lemma posts_app a b : posts (a ++ b) = posts a ++ posts b.
Proof. apply flat_map_app. Qed.

Lemma opens_app a b : opens (a ++ b) = opens a ++ opens b.
Proof. apply flat_map_app. Qed.

(** ** The telemetry snapshot *)

Module TelemetryFacts.
Import Telemetry.

Lemma lookup_store_other k key v d :
  k <> key -> Py.lookup k (Py.store key v d) = Py.lookup k d.
Proof.
  intros Hne. induction d as [| [k0 v0] rest IH]; simpl.
  - destruct (String.eqb_spec key k); congruence.
  - destruct (String.eqb_spec k0 key) as [-> | Hk0]; simpl.
    + destruct (String.eqb_spec key k); congruence.
    + destruct (String.eqb_spec k0 k); auto.
Qed.

Lemma gentle_ret {A} (a : A) : gentle (ret a).
Proof. intros info; simpl; eauto. Qed.

Lemma gentle_raise {A} e : gentle (@raise dict A e).
Proof. intros info; simpl; eauto. Qed.

Lemma gentle_lift {A} (r : attempt A) : gentle (lift r).
Proof. destruct r; [apply gentle_raise | apply gentle_ret]. Qed.

Lemma gentle_item {A} (xs : list A) i : gentle (item xs i).
Proof.
  unfold item. destruct (nth_error xs i); [apply gentle_ret | apply gentle_raise].
Qed.

Lemma gentle_set_item key v : ~ In key base_keys -> gentle (set_item key v).
Proof.
  intros Hout info; simpl; split; eauto.
  intros k Hin. apply lookup_store_other. intros ->. contradiction.
Qed.

Lemma gentle_bind {A B} (m : prog dict A) (k : A -> prog dict B) :
  gentle m -> (forall a, gentle (k a)) -> gentle (bind m k).
Proof.
  intros Hm Hk info. unfold bind.
  destruct (Hm info) as [Hkeep Hres].
  destruct (m info) as [[a | x | ] info1]; simpl in *.
  - destruct (Hk a info1) as [Hkeep2 Hres2]. split; auto.
    intros key Hin. rewrite Hkeep2, Hkeep; auto.
  - split; auto.
    destruct Hres as [[a Ha] | [e He]]; [discriminate | right; exists e; now inversion He].
  - split; auto.
    destruct Hres as [[a Ha] | [e He]]; discriminate.
Qed.

Lemma gentle_for_each {A} (body : A -> prog dict unit) xs :
  (forall x, gentle (body x)) -> gentle (for_each body xs).
Proof.
  intros Hb. induction xs as [| x rest IH]; simpl.
  - apply gentle_ret.
  - apply gentle_bind; auto.
Qed.

Ltac outside_base := simpl; intuition discriminate.

Ltac gentle_go :=
  repeat first
    [ apply gentle_ret | apply gentle_raise | apply gentle_lift | apply gentle_item
    | apply gentle_set_item; outside_base
    | apply gentle_bind; [| intros ?]
    | match goal with
      | |- gentle (if ?b then _ else _) => destruct b
      | |- gentle (let '(_, _) := ?p in _) => destruct p
      end ].

Lemma gentle_scan_cpuinfo lines : gentle (scan_cpuinfo lines).
Proof. induction lines as [| line rest IH]; simpl; gentle_go; auto. Qed.

Lemma gentle_scan_meminfo h line : gentle (scan_meminfo h line).
Proof. unfold scan_meminfo; gentle_go. Qed.

Lemma gentle_scan_temperature h files : gentle (scan_temperature h files).
Proof. induction files as [| file rest IH]; simpl; gentle_go; auto. Qed.

Lemma gentle_collect h : gentle (collect h).
Proof.
  unfold collect.
  repeat first
    [ apply gentle_scan_cpuinfo
    | apply gentle_scan_temperature
    | apply gentle_for_each; intros ?; apply gentle_scan_meminfo
    | apply gentle_ret | apply gentle_raise | apply gentle_lift | apply gentle_item
    | apply gentle_set_item; outside_base
    | apply gentle_bind; [| intros ?]
    | match goal with
      | |- gentle (if ?b then _ else _) => destruct b
      | |- gentle (let '(_, _) := ?p in _) => destruct p
      end ].
Qed.

Lemma base_info_has_keys device_id h k :
  In k base_keys -> Py.has_key k (base_info device_id h) = true.
Proof.
  simpl. intros [<- | [<- | [<- | [<- | [<- | []]]]]]; reflexivity.
Qed.

(** C10.  Whatever the host answers while the extended facts are
    collected, [get_system_info] returns a mapping, and that mapping
    holds the five base fields [device_id], [hostname], [kernel],
    [architecture] and [timestamp] with the values they were created
    with. *)
Theorem get_system_info_keeps_base_fields (w : world) (s : agent) :
  exists info,
    fst (get_system_info w s) = Ret info
    /\ forall k, In k base_keys ->
         Py.has_key k info = true
         /\ Py.lookup k info
            = Py.lookup k (base_info (self_device_id s) (host_at w (now s))).
Proof.
  unfold get_system_info.
  destruct (gentle_collect (host_at w (now s))
              (base_info (self_device_id s) (host_at w (now s))))
    as [Hkeep Hres].
  destruct (collect _ _) as [r info]; simpl in *.
  assert (Hkeys : forall k, In k base_keys ->
            Py.has_key k info = true
            /\ Py.lookup k info
               = Py.lookup k (base_info (self_device_id s) (host_at w (now s)))).
  { intros k Hin. split; [| now apply Hkeep].
    unfold Py.has_key. rewrite (Hkeep k Hin).
    exact (base_info_has_keys (self_device_id s) (host_at w (now s)) k Hin). }
  destruct Hres as [[a ->] | [e ->]]; exists info; split; auto.
Qed.

End TelemetryFacts.

(** ** The dispatcher *)

Lemma eq_str_true v k : Py.eq_str v k = true -> v = JStr k.
Proof.
  destruct v; simpl; try discriminate.
  intros H. apply String.eqb_eq in H. now subst.
Qed.

Lemma unrecognised_kind kind :
  (forall k, In k recognised_kinds -> kind <> JStr k) ->
  Py.eq_str kind "restart" = false
  /\ Py.eq_str kind "update" = false
  /\ Py.eq_str kind "install_app" = false
  /\ Py.eq_str kind "uninstall_app" = false
  /\ Py.eq_str kind "configure" = false.
Proof.
  intros H.
  repeat split;
    match goal with
    | |- Py.eq_str _ ?k = false =>
        destruct (Py.eq_str kind k) eqn:E; auto;
        apply eq_str_true in E; exfalso; apply (H k); [simpl; tauto | exact E]
    end.
Qed.

Ltac same_agent :=
  unfold after; simpl; repeat rewrite <- app_assoc; simpl; reflexivity.

(** C3.  A command that is a mapping whose [type] is missing, or is
    anything but one of [restart], [update], [install_app],
    [uninstall_app], [configure], is taken up, announced, answered with
    the warning about an unknown command type, and nothing else happens:
    the dispatcher returns normally and no executor action is called. *)
Theorem dispatch_unknown_kind_only_warns (w : world) (fields : dict) (s : agent) :
  let kind := match Py.lookup "type" fields with Some k => k | None => JNull end in
  (forall k, In k recognised_kinds -> kind <> JStr k) ->
  dispatch w (JObj fields) s
  = (Ret tt,
     after s [Dispatch (JObj fields);
              Log INFO (ProcessingCommand kind);
              Log WARNING (UnknownCommand kind)])
  /\ invocations (history (snd (dispatch w (JObj fields) s))) = invocations (history s).
Proof.
  intros kind Hkind.
  destruct (unrecognised_kind kind Hkind) as (H1 & H2 & H3 & H4 & H5).
  assert (Hrun : dispatch w (JObj fields) s
                 = (Ret tt,
                    after s [Dispatch (JObj fields);
                             Log INFO (ProcessingCommand kind);
                             Log WARNING (UnknownCommand kind)])).
  { unfold dispatch, route, bind, try_except, py_get, log, record, ret. simpl.
    fold kind. rewrite H1, H2, H3, H4, H5. simpl. f_equal. same_agent. }
  split; [exact Hrun |].
  rewrite Hrun. simpl. rewrite invocations_app. simpl. now rewrite app_nil_r.
Qed.

(** A command without a [type]. *)
Lemma dispatch_unknown_kind_only_warns_witness :
  dispatch unreachable no_command kiosk
  = (Ret tt,
     after kiosk [Dispatch no_command;
                  Log INFO (ProcessingCommand JNull);
                  Log WARNING (UnknownCommand JNull)])
  /\ invocations (history (snd (dispatch unreachable no_command kiosk)))
     = invocations (history kiosk).
Proof.
  apply (dispatch_unknown_kind_only_warns unreachable [("data", JObj [("x", JInt 1)])] kiosk).
  simpl. intros k Hk. discriminate.
Defined.

(** C1 (where the code departs from it).  When the first element of a
    batch is not a mapping, reading its [type] raises, the handler that was
    to log the failure reads the [type] again and raises in turn, and
    [process_commands] ends there with [AttributeError]: the rest of the
    batch is never taken up. *)
Theorem process_commands_aborts_on_non_mapping
  (w : world) (command : json) (rest : list json) (s : agent) :
  is_mapping command = false ->
  process_commands w (JArr (command :: rest)) s
  = (Raise (Exc AttributeError), after s [Dispatch command]).
Proof.
  intros Hm.
  unfold process_commands, py_iter, bind, ret. simpl.
  unfold dispatch, bind, try_except, record.
  destruct command; simpl in *; try discriminate; reflexivity.
Qed.

Lemma process_commands_aborts_on_non_mapping_witness :
  is_mapping (JStr "oops") = false
  /\ process_commands unreachable (JArr broken_batch) kiosk
     = (Raise (Exc AttributeError), after kiosk [Dispatch (JStr "oops")]).
Proof.
  split; [reflexivity |].
  apply (process_commands_aborts_on_non_mapping unreachable (JStr "oops")); reflexivity.
Defined.


(** ** Order of dispatch *)

Ltac chunk_found :=
  eexists; split;
  [ unfold after; simpl; repeat rewrite <- app_assoc; simpl; reflexivity
  | split; [split; reflexivity |] ].

Ltac comes_back Hr :=
  simpl;
  first
    [ reflexivity
    | intros _ Hresp;
      match type of Hr with
      | subprocess_run ?w ?t ?argv = _ =>
          destruct (Hresp t argv) as [Hok | [e' Herr]]; congruence
      end
    | intros Hm; discriminate Hm ].

(** What [dispatch] adds for one command: the command is taken up and the
    planned action, if any, is called; a command that is a mapping is
    always seen through when the reboot command comes back. *)
Lemma dispatch_chunk (w : world) (command : json) (s : agent) :
  exists chunk,
    snd (dispatch w command s) = after s chunk
    /\ chunk_of command chunk
    /\ (is_mapping command = true -> responsive w ->
        fst (dispatch w command s) = Ret tt).
Proof.
  unfold chunk_of, planned, dispatch, route.
  destruct command as [ | b | z | x | text | items | fields];
    try (match goal with
         | |- context [Dispatch ?c] => exists [Dispatch c]
         end;
         simpl; repeat split; intros Hm; discriminate Hm).
  set (kind := match Py.lookup "type" fields with Some k => k | None => JNull end).
  set (data := match Py.lookup "data" fields with Some d => d | None => JObj [] end).
  unfold bind, try_except, py_get, ret. rewrite record_after. fold kind. fold data.
  unfold log. rewrite record_after.
  destruct (Py.eq_str kind "restart") eqn:E1.
  { unfold restart_system, bind, log. rewrite !record_after, call_after. cbv beta.
    match goal with
    | |- context [subprocess_run w ?t ?argv] =>
        destruct (subprocess_run w t argv) as [[] | [e | | | ] | ] eqn:Hr
    end; fold kind; try rewrite record_after; chunk_found; comes_back Hr. }
  destruct (Py.eq_str kind "update") eqn:E2.
  { unfold update_system, log. rewrite !record_after. chunk_found; reflexivity. }
  destruct (Py.eq_str kind "install_app") eqn:E3.
  { unfold install_application, bind, py_get, log, ret, raise.
    rewrite !record_after.
    destruct data; try rewrite !record_after; fold kind;
      try rewrite !record_after; chunk_found; reflexivity. }
  destruct (Py.eq_str kind "uninstall_app") eqn:E4.
  { unfold uninstall_application, bind, py_get, log, ret, raise.
    rewrite !record_after.
    destruct data; try rewrite !record_after; fold kind;
      try rewrite !record_after; chunk_found; reflexivity. }
  destruct (Py.eq_str kind "configure") eqn:E5.
  { unfold configure_system, log. rewrite !record_after. chunk_found; reflexivity. }
  rewrite record_after. chunk_found; reflexivity.
Qed.

(** What the loop of [process_commands] adds: one chunk per command it
    takes up, in the order of the batch; all of the batch when every
    command is a mapping and the reboot command comes back. *)
Lemma dispatch_some (w : world) (cmds : list json) :
  forall s, exists chunks,
    snd (for_each (dispatch w) cmds s) = after s (concat chunks)
    /\ Forall2 chunk_of (firstn (length chunks) cmds) chunks
    /\ (Forall (fun c => is_mapping c = true) cmds -> responsive w ->
        fst (for_each (dispatch w) cmds s) = Ret tt
        /\ length chunks = length cmds).
Proof.
  induction cmds as [| c rest IH]; intros s.
  - exists []. simpl. rewrite after_nil. repeat split; constructor.
  - destruct (dispatch_chunk w c s) as [chunk (Hs & Hc & Hret)].
    simpl for_each. unfold bind.
    destruct (dispatch w c s) as [[[] | x | ] s1] eqn:Hd; simpl in Hs; subst s1.
    + destruct (IH (after s chunk)) as [chunks (Hs2 & Hc2 & Hret2)].
      exists (chunk :: chunks). simpl. rewrite Hs2, after_after.
      split; [reflexivity |]. split; [now constructor |].
      intros Hall Hresp. inversion Hall; subst.
      destruct (Hret2 H2 Hresp) as [Hr Hl]. split; [exact Hr | now rewrite Hl].
    + exists [chunk]. simpl. rewrite app_nil_r.
      split; [reflexivity |]. split; [constructor; [exact Hc | constructor] |].
      intros Hall Hresp. inversion Hall; subst.
      specialize (Hret H1 Hresp). discriminate Hret.
    + exists [chunk]. simpl. rewrite app_nil_r.
      split; [reflexivity |]. split; [constructor; [exact Hc | constructor] |].
      intros Hall Hresp. inversion Hall; subst.
      specialize (Hret H1 Hresp). discriminate Hret.
Qed.

Lemma chunks_read (cmds : list json) (chunks : list (list event)) :
  Forall2 chunk_of cmds chunks ->
  dispatched (concat chunks) = cmds
  /\ invocations (concat chunks) = flat_map planned cmds.
Proof.
  induction 1 as [| c chunk cmds chunks [Hd Hi] _ [IHd IHi]]; simpl; auto.
  rewrite dispatched_app, invocations_app, Hd, Hi, IHd, IHi. auto.
Qed.

Lemma invoked_somewhere (evs : list event) (a : action) :
  In a (invocations evs) -> exists p, nth_error evs p = Some (Invoke a).
Proof.
  intros Hin. apply In_nth_error.
  induction evs as [| ev rest IH]; simpl in *; [contradiction |].
  apply in_app_or in Hin. destruct Hin as [Hin | Hin]; [| right; auto].
  destruct ev; simpl in Hin; try contradiction.
  destruct Hin as [-> | []]. now left.
Qed.

(** The action of any command of the batch is called somewhere. *)
Lemma invoked_in_chunks (cmds : list json) (chunks : list (list event)) :
  Forall2 chunk_of cmds chunks ->
  forall j cj b,
    nth_error cmds j = Some cj -> In b (planned cj) ->
    exists q, nth_error (concat chunks) q = Some (Invoke b).
Proof.
  induction 1 as [| c chunk cmds chunks [Hd Hi] _ IH]; intros j cj b Hj Hb.
  - destruct j; discriminate.
  - simpl. destruct j as [| j]; simpl in Hj.
    + inversion Hj; subst cj. rewrite <- Hi in Hb.
      destruct (invoked_somewhere chunk b Hb) as [p Hp].
      exists p. rewrite nth_error_app1; auto.
      apply nth_error_Some. congruence.
    + destruct (IH j cj b Hj Hb) as [q Hq].
      exists (length chunk + q)%nat. rewrite nth_error_app2 by lia.
      replace (length chunk + q - length chunk)%nat with q by lia. exact Hq.
Qed.

(** The action of an earlier command is called before that of a later one. *)
Lemma invoked_in_order (cmds : list json) (chunks : list (list event)) :
  Forall2 chunk_of cmds chunks ->
  forall i j ci cj a b,
    (i < j)%nat ->
    nth_error cmds i = Some ci -> nth_error cmds j = Some cj ->
    In a (planned ci) -> In b (planned cj) ->
    exists p q,
      (p < q)%nat
      /\ nth_error (concat chunks) p = Some (Invoke a)
      /\ nth_error (concat chunks) q = Some (Invoke b).
Proof.
  induction 1 as [| c chunk cmds chunks [Hd Hi] Hrest IH];
    intros i j ci cj a b Hlt Hci Hcj Ha Hb.
  - destruct i; discriminate.
  - destruct j as [| j]; [lia |]. simpl in Hcj. simpl concat.
    destruct i as [| i]; simpl in Hci.
    + inversion Hci; subst ci. rewrite <- Hi in Ha.
      destruct (invoked_somewhere chunk a Ha) as [p Hp].
      destruct (invoked_in_chunks cmds chunks Hrest j cj b Hcj Hb) as [q Hq].
      assert (Hlen : (p < length chunk)%nat) by (apply nth_error_Some; congruence).
      exists p, (length chunk + q)%nat. split; [lia |]. split.
      * rewrite nth_error_app1; auto.
      * rewrite nth_error_app2 by lia.
        replace (length chunk + q - length chunk)%nat with q by lia. exact Hq.
    + destruct (IH i j ci cj a b ltac:(lia) Hci Hcj Ha Hb) as (p & q & Hpq & Hp & Hq).
      exists (length chunk + p)%nat, (length chunk + q)%nat.
      split; [lia |]. split; rewrite nth_error_app2 by lia.
      * replace (length chunk + p - length chunk)%nat with p by lia. exact Hp.
      * replace (length chunk + q - length chunk)%nat with q by lia. exact Hq.
Qed.

(** ** The command stream *)

(** What the loop body does with a ping. *)
Lemma on_message_ping (w : world) (fields : dict) (c : connection) (s : agent) :
  Py.lookup "type" fields = Some (JStr "ping") ->
  self_websocket s = Some c ->
  exists tail,
    snd (on_message w (Parsed (JObj fields)) s) = after s (StreamSend c pong :: tail)
    /\ Forall (fun ev => kind_of ev = KLog) tail.
Proof.
  intros Hty Hsock.
  unfold on_message, try_except, bind, json_loads, ret, handle_websocket_message,
    bind, py_get, ret.
  rewrite Hty. simpl.
  unfold send, bind, attribute. rewrite Hsock. rewrite call_after.
  destruct (websocket_send w (now s) c pong) as [[] | [e | | | ] | ]; simpl;
    try (exists []; split; [reflexivity | constructor]).
  exists [Log ERROR (StreamMessageFailed e)].
  split; [same_agent |].
  constructor; [reflexivity | constructor].
Qed.

Lemma only_logs_quiet (tail : list event) :
  Forall (fun ev => kind_of ev = KLog) tail ->
  sends tail = [] /\ dispatched tail = [] /\ invocations tail = [].
Proof.
  intros H.
  assert (H' : Forall (fun ev => In (kind_of ev) [KLog]) tail).
  { eapply Forall_impl; [| exact H]. simpl. intros ev ->. now left. }
  repeat split;
    [ apply (no_send [KLog]) | apply (no_dispatch [KLog]) | apply (no_invocation [KLog]) ];
    auto; kind_absent.
Qed.

(** C8.  For a message whose [type] is [ping], the receive loop sends
    exactly one frame, the reply [{"type": "pong"}], on the connection
    held in [self.websocket], and it is the first thing the loop does with
    the message; no command is taken up and no executor action is
    called. *)
Theorem ping_gets_exactly_one_pong
  (w : world) (fields : dict) (c : connection) (ending : outcome unit) (s : agent) :
  Py.lookup "type" fields = Some (JStr "ping") ->
  self_websocket s = Some c ->
  exists evs,
    snd (on_message w (Parsed (JObj fields)) s) = after s evs
    /\ snd (receive w [Parsed (JObj fields)] ending s) = after s evs
    /\ nth_error evs 0 = Some (StreamSend c (JObj [("type", JStr "pong")]))
    /\ sends evs = [(c, JObj [("type", JStr "pong")])]
    /\ dispatched evs = []
    /\ invocations evs = [].
Proof.
  intros Hty Hsock.
  destruct (on_message_ping w fields c s Hty Hsock) as [tail [Hh Hlogs]].
  destruct (only_logs_quiet tail Hlogs) as (Hs & Hd & Hi).
  exists (StreamSend c pong :: tail). split; [exact Hh |]. split.
  - unfold receive. cbn [for_each]. unfold bind, ret, await.
    destruct (on_message w (Parsed (JObj fields)) s) as [[[] | x | ] s1];
      simpl in Hh; subst s1; reflexivity.
  - simpl. rewrite Hs, Hd, Hi. auto.
Qed.

Lemma ping_gets_exactly_one_pong_witness :
  Py.lookup "type" [("type", JStr "ping")] = Some (JStr "ping")
  /\ self_websocket kiosk_online = Some 7%nat
  /\ exists evs,
       snd (on_message unreachable (Parsed ping_message) kiosk_online)
       = after kiosk_online evs
       /\ snd (receive unreachable [Parsed ping_message] (Ret tt) kiosk_online)
          = after kiosk_online evs
       /\ nth_error evs 0 = Some (StreamSend 7%nat (JObj [("type", JStr "pong")]))
       /\ sends evs = [(7%nat, JObj [("type", JStr "pong")])]
       /\ dispatched evs = []
       /\ invocations evs = [].
Proof.
  split; [reflexivity |]. split; [reflexivity |].
  apply (ping_gets_exactly_one_pong unreachable [("type", JStr "ping")] 7%nat (Ret tt)
           kiosk_online);
    reflexivity.
Defined.

Lemma receive_step (w : world) message rest ending s :
  fst (on_message w message s) = Ret tt ->
  receive w (message :: rest) ending s
  = receive w rest ending (snd (on_message w message s)).
Proof.
  unfold receive. simpl. unfold bind.
  destruct (on_message w message s) as [[[] | x | ] s1]; simpl;
    intros H; try discriminate; reflexivity.
Qed.

(** An error raised while a frame is handled ends in the log. *)
Lemma on_message_error (w : world) message s e s1 :
  (data <- json_loads message ;; handle_websocket_message w data) s
  = (Raise (Exc e), s1) ->
  on_message w message s = (Ret tt, after s1 [Log ERROR (StreamMessageFailed e)]).
Proof.
  intros H. unfold on_message, try_except. rewrite H. reflexivity.
Qed.

Lemma handling_never_closes (w : world) v s :
  exists evs,
    snd (handle_websocket_message w v s) = after s evs
    /\ closes evs = [].
Proof.
  destruct (emits_handle_websocket_message w v s) as [evs [Hh Hk]].
  exists evs; split; auto.
  apply (no_close message_kinds); auto. unfold message_kinds, dispatch_kinds. kind_absent.
Qed.

(** What a malformed frame raises, and where. *)
Lemma malformed_raises (w : world) message s :
  malformed w message s ->
  exists e evs,
    (data <- json_loads message ;; handle_websocket_message w data) s
    = (Raise (Exc e), after s evs)
    /\ closes evs = [].
Proof.
  intros [[raw ->] | [[v [-> Hv]] | [v [e [-> He]]]]].
  - exists JSONDecodeError, []. rewrite after_nil. auto.
  - exists AttributeError, []. rewrite after_nil.
    destruct v; simpl in *; try discriminate; auto.
  - destruct (handling_never_closes w v s) as [evs [Hh Hc]].
    exists e, evs. split; auto.
    unfold bind; simpl.
    destruct (handle_websocket_message w v s) as [r s1]; simpl in *.
    subst r s1. reflexivity.
Qed.

(** The frame that follows a frame handled without a raise is handled
    in the state that frame left, and what its handling adds stays in the
    history of the loop. *)
Lemma receive_handles_next (w : world) message next later ending s s1 :
  on_message w message s = (Ret tt, s1) ->
  exists more,
    history (snd (receive w (message :: next :: later) ending s))
    = history (snd (on_message w next s1)) ++ more.
Proof.
  intros Hon.
  rewrite receive_step by (now rewrite Hon). rewrite Hon. cbn [snd].
  unfold receive. cbn [for_each]. unfold bind at 1 2.
  destruct (emits_on_message w next s1) as [evs [Hnext _]].
  destruct (on_message w next s1) as [[[] | x | ] s2]; cbn [snd] in *;
    try (exists []; now rewrite app_nil_r).
  destruct (emits_receive w later ending s2) as [more [Hmore _]].
  unfold receive, bind in Hmore.
  exists more. rewrite Hmore. reflexivity.
Qed.

(** C7.  A frame that does not parse, that parses to a value which is
    not a mapping, or whose handling raises an error, is logged by the
    body of the receive loop, which returns normally; the agent closes no
    connection and leaves [self.websocket] as it is, and the loop goes on
    with the frames that follow on the same stream: the next frame is
    handled in the state the malformed one left, and when it is a ping the
    pong is sent on the same connection right after the failure was
    logged. *)
Theorem malformed_message_keeps_stream
  (w : world) (message : frame) (rest : list frame) (ending : outcome unit)
  (s : agent) :
  malformed w message s ->
  exists evs e,
    on_message w message s
    = (Ret tt, after s (evs ++ [Log ERROR (StreamMessageFailed e)]))
    /\ closes (evs ++ [Log ERROR (StreamMessageFailed e)]) = []
    /\ receive w (message :: rest) ending s
       = receive w rest ending (after s (evs ++ [Log ERROR (StreamMessageFailed e)]))
    /\ (forall next later,
          rest = next :: later ->
          exists more,
            history (snd (receive w (message :: rest) ending s))
            = history (snd (on_message w next
                              (after s (evs ++ [Log ERROR (StreamMessageFailed e)]))))
                ++ more)
    /\ (forall fields c later,
          rest = Parsed (JObj fields) :: later ->
          Py.lookup "type" fields = Some (JStr "ping") ->
          self_websocket s = Some c ->
          exists tail,
            history (snd (receive w (message :: rest) ending s))
            = history s
                ++ evs
                ++ [Log ERROR (StreamMessageFailed e);
                    StreamSend c (JObj [("type", JStr "pong")])]
                ++ tail).
Proof.
  intros Hbad.
  destruct (malformed_raises w message s Hbad) as (e & evs & Hrun & Hc).
  pose proof (on_message_error w message s e _ Hrun) as Hon.
  rewrite after_after in Hon.
  exists evs, e. split; [exact Hon |]. split; [| split; [| split]].
  - rewrite closes_app, Hc. reflexivity.
  - rewrite receive_step; rewrite Hon; reflexivity.
  - intros next later ->.
    exact (receive_handles_next w message next later ending s _ Hon).
  - intros fields c later -> Hty Hsock.
    destruct (receive_handles_next w message (Parsed (JObj fields)) later ending s _ Hon)
      as [more Hmore].
    destruct (on_message_ping w fields c
                (after s (evs ++ [Log ERROR (StreamMessageFailed e)])) Hty Hsock)
      as [tail [Hh _]].
    rewrite Hh in Hmore. exists (tail ++ more). rewrite Hmore. simpl.
    rewrite <- !app_assoc. reflexivity.
Qed.

Lemma malformed_message_keeps_stream_witness :
  malformed unreachable (Garbled "{not json") kiosk_online
  /\ exists evs e,
       on_message unreachable (Garbled "{not json") kiosk_online
       = (Ret tt, after kiosk_online (evs ++ [Log ERROR (StreamMessageFailed e)]))
       /\ closes (evs ++ [Log ERROR (StreamMessageFailed e)]) = []
       /\ receive unreachable [Garbled "{not json"; Parsed ping_message] (Ret tt)
            kiosk_online
          = receive unreachable [Parsed ping_message] (Ret tt)
              (after kiosk_online (evs ++ [Log ERROR (StreamMessageFailed e)]))
       /\ (forall next later,
             [Parsed ping_message] = next :: later ->
             exists more,
               history (snd (receive unreachable
                               [Garbled "{not json"; Parsed ping_message] (Ret tt)
                               kiosk_online))
               = history (snd (on_message unreachable next
                                 (after kiosk_online
                                    (evs ++ [Log ERROR (StreamMessageFailed e)]))))
                   ++ more)
       /\ (forall fields c later,
             [Parsed ping_message] = Parsed (JObj fields) :: later ->
             Py.lookup "type" fields = Some (JStr "ping") ->
             self_websocket kiosk_online = Some c ->
             exists tail,
               history (snd (receive unreachable
                               [Garbled "{not json"; Parsed ping_message] (Ret tt)
                               kiosk_online))
               = history kiosk_online
                   ++ evs
                   ++ [Log ERROR (StreamMessageFailed e);
                       StreamSend c (JObj [("type", JStr "pong")])]
                   ++ tail).
Proof.
  assert (H : malformed unreachable (Garbled "{not json") kiosk_online).
  { left. exists "{not json". reflexivity. }
  split; [exact H |].
  exact (malformed_message_keeps_stream unreachable (Garbled "{not json")
           [Parsed ping_message] (Ret tt) kiosk_online H).
Defined.

(** The same run computed: the failure is logged, then the ping that
    follows is answered on connection 7. *)
Example garbled_then_ping :
  receive unreachable [Garbled "{not json"; Parsed ping_message] (Ret tt) kiosk_online
  = (Ret tt,
     after kiosk_online
       [Log ERROR (StreamMessageFailed JSONDecodeError);
        StreamSend 7%nat (JObj [("type", JStr "pong")])]).
Proof. reflexivity. Qed.

(** C9 (as the code has it).  The frames of one connection are handled
    strictly one after the other.  While the handling of an earlier frame
    (a command's executor action, say) has not returned, the receive loop
    stands still and a ping that has arrived meanwhile gets no pong; once
    the earlier frames are all handled, the pong is the very next thing
    the agent adds to the history. *)
Theorem ping_reply_waits_for_earlier_frames
  (w : world) (before : list frame) (fields : dict) (later : list frame)
  (ending : outcome unit) (c : connection) (s : agent) :
  Py.lookup "type" fields = Some (JStr "ping") ->
  self_websocket s = Some c ->
  let earlier := for_each (on_message w) before s in
  (fst earlier = Blocks ->
   receive w (before ++ Parsed (JObj fields) :: later) ending s
   = (Blocks, snd earlier))
  /\ (fst earlier = Ret tt ->
      exists tail,
        history (snd (receive w (before ++ Parsed (JObj fields) :: later) ending s))
        = history (snd earlier) ++ StreamSend c pong :: tail).
Proof.
  intros Hty Hsock earlier.
  assert (Hsplit : receive w (before ++ Parsed (JObj fields) :: later) ending s
                   = match earlier with
                     | (Ret _, s1) => receive w (Parsed (JObj fields) :: later) ending s1
                     | (Raise x, s1) => (Raise x, s1)
                     | (Blocks, s1) => (Blocks, s1)
                     end).
  { unfold receive at 1. unfold bind at 1. rewrite for_each_app.
    unfold bind at 1. fold earlier.
    destruct earlier as [[[] | x | ] s1]; reflexivity. }
  assert (Hkeep : self_websocket (snd earlier) = Some c).
  { destruct (emits_for_each message_kinds (on_message w) before
                (emits_on_message w) s) as [evs [Hh _]].
    unfold earlier. rewrite Hh. exact Hsock. }
  split.
  - intros Hb. rewrite Hsplit.
    destruct earlier as [[[] | x | ] s1]; simpl in *; try discriminate; reflexivity.
  - intros Hr. rewrite Hsplit.
    destruct earlier as [[[] | x | ] s1]; simpl in *; try discriminate.
    destruct (on_message_ping w fields c s1 Hty Hkeep) as [tail [Hh _]].
    unfold receive; simpl; unfold bind at 1 2.
    destruct (on_message w (Parsed (JObj fields)) s1) as [[[] | x | ] s2] eqn:Hon;
      simpl in Hh; subst s2; try (now exists tail).
    destruct (emits_receive w later ending (after s1 (StreamSend c pong :: tail)))
      as [more [Hmore _]].
    unfold receive, bind in Hmore.
    exists (tail ++ more). rewrite Hmore. simpl. rewrite <- app_assoc. reflexivity.
Qed.

Lemma ping_reply_waits_for_earlier_frames_witness :
  receive stuck_world [Parsed restart_message; Parsed ping_message] Blocks kiosk_online
  = (Blocks, snd (for_each (on_message stuck_world) [Parsed restart_message] kiosk_online))
  /\ exists tail,
       history (snd (receive unreachable [Parsed restart_message; Parsed ping_message]
                       (Ret tt) kiosk_online))
       = history (snd (for_each (on_message unreachable) [Parsed restart_message]
                         kiosk_online))
           ++ StreamSend 7%nat pong :: tail.
Proof.
  split.
  - apply (proj1 (ping_reply_waits_for_earlier_frames stuck_world
                    [Parsed restart_message] [("type", JStr "ping")] [] Blocks 7%nat
                    kiosk_online eq_refl eq_refl)).
    reflexivity.
  - apply (proj2 (ping_reply_waits_for_earlier_frames unreachable
                    [Parsed restart_message] [("type", JStr "ping")] [] (Ret tt) 7%nat
                    kiosk_online eq_refl eq_refl)); reflexivity.
Defined.

(** C9 (as stated) fails.  A restart command arrives, then a ping; the
    reboot command does not return.  The agent has called the executor
    action and stands there: the ping that arrived is never answered. *)
Lemma ping_unanswered_while_restart_runs :
  In (Parsed ping_message) (inbound restart_then_ping)
  /\ fst (connect_websocket stuck_world kiosk) = Blocks
  /\ history (snd (connect_websocket stuck_world kiosk))
     = [StreamOpen "ws://srv/ws/devices/kiosk-1" [];
        Log INFO StreamConnected;
        Dispatch (JObj [("type", JStr "restart")]);
        Log INFO (ProcessingCommand (JStr "restart"));
        Invoke RestartSystem;
        Log INFO RestartRequested;
        Subprocess ["sudo"; "systemctl"; "reboot"]]
  /\ sends (history (snd (connect_websocket stuck_world kiosk))) = [].
Proof.
  repeat split; try reflexivity.
  simpl. right. left. reflexivity.
Qed.

(** ** The heartbeat *)

Lemma get_system_info_returns (w : world) (s : agent) :
  exists info logs,
    get_system_info w s = (Ret info, after s logs)
    /\ Forall (fun ev => kind_of ev = KLog) logs.
Proof.
  unfold get_system_info.
  destruct (TelemetryFacts.gentle_collect (host_at w (now s))
              (Telemetry.base_info (self_device_id s) (host_at w (now s))))
    as [_ Hres].
  destruct (Telemetry.collect _ _) as [r info]; simpl in *.
  destruct Hres as [[a ->] | [e ->]].
  - exists info, []. rewrite after_nil. split; auto.
  - exists info, [Log ERROR (CollectFailed e)].
    split; [reflexivity | repeat constructor].
Qed.


Lemma emits_on_response_tight (w : world) (resp : response) :
  emits dispatch_kinds (on_response w resp).
Proof.
  unfold on_response.
  destruct (status resp =? 200)%Z; [| apply emits_log; simpl; tauto].
  apply emits_bind; [apply emits_log; simpl; tauto | intros _].
  unfold process_response.
  apply emits_try_except; [| intros e; apply emits_log; simpl; tauto].
  apply emits_bind; [apply emits_await | intros data].
  apply emits_bind; [apply emits_py_contains | intros present].
  destruct present; [| apply emits_ret].
  apply emits_bind; [apply emits_py_getitem | intros commands].
  apply emits_process_commands.
Qed.

Lemma logs_allowed (logs : list event) (allowed : list kind) :
  In KLog allowed ->
  Forall (fun ev => kind_of ev = KLog) logs ->
  Forall (fun ev => In (kind_of ev) allowed) logs.
Proof.
  intros Hin H. eapply Forall_impl; [| exact H]. simpl. intros ev ->. exact Hin.
Qed.

Lemma after_inj (s : agent) (a b : list event) : after s a = after s b -> a = b.
Proof.
  intros H. apply (f_equal history) in H. simpl in H.
  now apply app_inv_head in H.
Qed.

Lemma readable_or (v : setting) : readable v \/ v = Unreadable.
Proof. destruct v; [left | right | left]; unfold readable; congruence. Qed.

(** A heartbeat of an agent with a session, a server address and a
    server section that can be read: the snapshot is collected, then
    posted to the address built from the section. *)
Lemma send_heartbeat_posts (w : world) (s : agent) (u : string) :
  self_session s = true ->
  server_url (self_config s) = Present u ->
  readable (server_api_path (self_config s)) ->
  readable (server_api_key (self_config s)) ->
  exists info logs,
    Forall (fun ev => kind_of ev = KLog) logs
    /\ get_system_info w s = (Ret info, after s logs)
    /\ send_heartbeat w s
       = try_except
           (response <-
              call (Post (heartbeat_url u (configured_or server_api_path "/api" s)
                            (self_device_id s))
                         info
                         (heartbeat_headers (configured_or server_api_key "" s)))
                   (fun t =>
                      session_post w t
                        (heartbeat_url u (configured_or server_api_path "/api" s)
                           (self_device_id s))
                        info
                        (heartbeat_headers (configured_or server_api_key "" s))) ;;
            on_response w response)
           (fun e => log ERROR (HeartbeatFailed e))
           (after s logs).
Proof.
  intros Hs Hu Hpath Hkey.
  destruct (get_system_info_returns w s) as (info & logs & Hg & Hl).
  exists info, logs. split; [exact Hl |]. split; [exact Hg |].
  unfold configured_or, send_heartbeat, bind, try_except, attribute, config_get,
    config_get_fallback.
  cbv beta iota. rewrite Hs. cbn [negb]. cbv beta iota. rewrite Hu.
  destruct (server_api_path (self_config s)); try (exfalso; now apply Hpath);
    destruct (server_api_key (self_config s)); try (exfalso; now apply Hkey);
    cbv beta iota; rewrite Hg; reflexivity.
Qed.

Lemma send_heartbeat_run (w : world) (s : agent) (u : string) :
  self_session s = true ->
  server_url (self_config s) = Present u ->
  readable (server_api_path (self_config s)) ->
  readable (server_api_key (self_config s)) ->
  exists info logs url hs,
    Forall (fun ev => kind_of ev = KLog) logs
    /\ post_time w s = now (after s logs)
    /\ send_heartbeat w s
       = try_except
           (response <- call (Post url info hs)
                             (fun t => session_post w t url info hs) ;;
            on_response w response)
           (fun e => log ERROR (HeartbeatFailed e))
           (after s logs).
Proof.
  intros Hs Hu Hpath Hkey.
  destruct (send_heartbeat_posts w s u Hs Hu Hpath Hkey)
    as (info & logs & Hl & Hg & Hrun).
  exists info, logs. do 2 eexists.
  split; [exact Hl |]. split; [unfold post_time; now rewrite Hg |]. exact Hrun.
Qed.

(** When the API path or the key cannot be read, the heartbeat logs
    that and makes no request. *)
Lemma send_heartbeat_unreadable (w : world) (s : agent) (u : string) :
  self_session s = true ->
  server_url (self_config s) = Present u ->
  server_api_path (self_config s) = Unreadable
  \/ server_api_key (self_config s) = Unreadable ->
  send_heartbeat w s
  = (Ret tt, after s [Log ERROR (HeartbeatFailed InterpolationError)]).
Proof.
  intros Hs Hu Hbad.
  unfold send_heartbeat, bind, try_except, attribute, config_get, config_get_fallback.
  cbv beta iota. rewrite Hs. cbn [negb]. cbv beta iota. rewrite Hu.
  destruct Hbad as [Hpath | Hkey].
  - rewrite Hpath. reflexivity.
  - destruct (server_api_path (self_config s)); cbv beta iota;
      try rewrite Hkey; reflexivity.
Qed.

(** The one request of a heartbeat. *)
Lemma send_heartbeat_request (w : world) (s : agent) (u : string) :
  self_session s = true ->
  server_url (self_config s) = Present u ->
  readable (server_api_path (self_config s)) ->
  readable (server_api_key (self_config s)) ->
  exists body logs evs,
    get_system_info w s = (Ret body, after s logs)
    /\ snd (send_heartbeat w s) = after s evs
    /\ posts evs
       = [(heartbeat_url u (configured_or server_api_path "/api" s) (self_device_id s),
           body,
           heartbeat_headers (configured_or server_api_key "" s))].
Proof.
  intros Hs Hu Hpath Hkey.
  destruct (send_heartbeat_posts w s u Hs Hu Hpath Hkey)
    as (info & logs & Hl & Hg & Hrun).
  set (url := heartbeat_url u (configured_or server_api_path "/api" s) (self_device_id s))
    in *.
  set (hs := heartbeat_headers (configured_or server_api_key "" s)) in *.
  assert (Hlogs : posts logs = []).
  { apply (no_post [KLog]); [apply logs_allowed; [simpl; tauto | exact Hl] |].
    kind_absent. }
  assert (Hrest : exists rest,
             snd (send_heartbeat w s) = after s ((logs ++ [Post url info hs]) ++ rest)
             /\ posts rest = []).
  { rewrite Hrun. unfold try_except, bind. rewrite call_after, after_after. cbv beta.
    destruct (session_post w (now (after s logs)) url info hs)
      as [resp | [e | | | ] | ];
      try (exists []; rewrite app_nil_r; split; reflexivity).
    - destruct (emits_on_response_tight w resp (after s (logs ++ [Post url info hs])))
        as [evs [Hh Hk]].
      assert (Hp : posts evs = [])
        by (apply (no_post dispatch_kinds); [exact Hk | unfold dispatch_kinds; kind_absent]).
      rewrite after_after in Hh.
      destruct (on_response w resp (after s (logs ++ [Post url info hs])))
        as [[[] | [e | | | ] | ] s2]; simpl in Hh; subst s2; simpl;
        try (exists evs; split; [reflexivity | exact Hp]).
      exists (evs ++ [Log ERROR (HeartbeatFailed e)]).
      split; [same_agent | rewrite posts_app, Hp; reflexivity].
    - exists [Log ERROR (HeartbeatFailed e)]. split; [same_agent | reflexivity]. }
  destruct Hrest as (rest & Hsnd & Hp).
  exists info, logs, ((logs ++ [Post url info hs]) ++ rest).
  split; [exact Hg |]. split; [exact Hsnd |].
  rewrite !posts_app, Hlogs, Hp. reflexivity.
Qed.

(** A heartbeat whose request fails: the failure is the last record of
    the tick, after the snapshot logs and the request itself.  A section
    that cannot be read ends the tick in the same way, before any
    request. *)
Lemma failed_tick (w : world) (s : agent) (u : string) :
  self_session s = true ->
  server_url (self_config s) = Present u ->
  (forall url body hs, failed_reply (session_post w (post_time w s) url body hs)) ->
  exists evs m,
    send_heartbeat w s = (Ret tt, after s (evs ++ [Log ERROR m]))
    /\ Forall (fun ev => In (kind_of ev) [KLog; KPost]) evs.
Proof.
  intros Hs Hu Hfail.
  destruct (readable_or (server_api_path (self_config s))) as [Hpath | Hpath];
    [| exists [], (HeartbeatFailed InterpolationError);
       split; [apply (send_heartbeat_unreadable w s u); auto | constructor]].
  destruct (readable_or (server_api_key (self_config s))) as [Hkey | Hkey];
    [| exists [], (HeartbeatFailed InterpolationError);
       split; [apply (send_heartbeat_unreadable w s u); auto | constructor]].
  destruct (send_heartbeat_run w s u Hs Hu Hpath Hkey)
    as (info & logs & url & hs & Hl & Ht & Hrun).
  specialize (Hfail url info hs). rewrite Ht in Hfail.
  assert (Hlogs : Forall (fun ev => In (kind_of ev) [KLog; KPost]) logs)
    by (apply logs_allowed; [simpl; tauto | exact Hl]).
  rewrite Hrun. unfold try_except, bind. rewrite call_after. cbv beta.
  inversion Hfail as [e He | resp Hst He | resp e Hst Hbody He].
  - exists (logs ++ [Post url info hs]), (HeartbeatFailed e).
    split; [unfold log, record; simpl; f_equal; same_agent |].
    apply Forall_app; split; [exact Hlogs | kinds_listed].
  - exists (logs ++ [Post url info hs]), (HeartbeatStatus (status resp)).
    unfold on_response. apply Z.eqb_neq in Hst. rewrite Hst.
    split; [unfold log, record; simpl; f_equal; same_agent |].
    apply Forall_app; split; [exact Hlogs | kinds_listed].
  - exists (logs ++ [Post url info hs; Log DEBUG HeartbeatSent]), (ResponseFailed e).
    unfold on_response. rewrite Hst. simpl.
    unfold process_response, try_except, bind, await. rewrite Hbody.
    split; [unfold log, record; simpl; f_equal; same_agent |].
    apply Forall_app; split; [exact Hlogs | kinds_listed].
Qed.

(** One turn of the heartbeat loop: what the heartbeat adds, then
    nothing but sleeps and log records. *)
Lemma heartbeat_turn (w : world) (interval : Z) (s : agent) (evs : list event) :
  running w s = true ->
  snd (send_heartbeat w s) = after s evs ->
  exists rest,
    snd (heartbeat_loop w interval 1 s) = after s (evs ++ rest)
    /\ Forall (fun ev => In (kind_of ev) [KLog; KSleep]) rest.
Proof.
  intros Hrun Hsnd. cbn [heartbeat_loop]. rewrite Hrun. unfold bind at 1.
  destruct (send_heartbeat w s) as [r s1]; simpl in Hsnd; subst s1.
  assert (Hhandler : forall e evs0,
             Forall (fun ev => In (kind_of ev) [KLog; KSleep]) evs0 ->
             exists rest,
               snd (match (log ERROR (HeartbeatLoopError e) ;; sleep w interval)
                            (after s (evs ++ evs0)) with
                    | (Ret _, s2) => ret Pending s2
                    | (Raise x, s2) => (Raise x, s2)
                    | (Blocks, s2) => (Blocks, s2)
                    end) = after s (evs ++ rest)
               /\ Forall (fun ev => In (kind_of ev) [KLog; KSleep]) rest).
  { intros e evs0 K0. unfold bind, log, sleep.
    rewrite record_after, call_after, !after_after.
    exists (evs0 ++ [Log ERROR (HeartbeatLoopError e); Sleep interval]).
    split.
    - destruct (asyncio_sleep w _ interval) as [[] | x | ]; cbn [snd ret];
        rewrite <- !app_assoc; reflexivity.
    - apply Forall_app; split; [exact K0 | kinds_listed]. }
  destruct r as [[] | [e | | | ] | ];
    try (exists []; rewrite app_nil_r; split; [reflexivity | constructor]).
  - unfold sleep. rewrite call_after, after_after.
    destruct (asyncio_sleep w _ interval) as [[] | [e | | | ] | ];
      try (exists [Sleep interval]; split; [reflexivity | kinds_listed]).
    apply (Hhandler e [Sleep interval]). kinds_listed.
  - pose proof (Hhandler e [] (Forall_nil _)) as H.
    rewrite app_nil_r in H. exact H.
Qed.

(** C6.  A heartbeat whose request fails (the transport raises, the
    status is not 200, or the body cannot be read) logs the failure as the
    last thing it does and returns normally, without sleeping; the loop
    then sleeps [interval] once and is still going: run for one turn it
    stands there, not left, and run for more it goes into its next turn,
    in which, the flag still set, the next request is made. *)
Theorem failed_heartbeat_retries_next_tick
  (w : world) (interval : Z) (turns : nat) (s : agent) (u : string) :
  running w s = true ->
  self_session s = true ->
  server_url (self_config s) = Present u ->
  (forall url body hs, failed_reply (session_post w (post_time w s) url body hs)) ->
  asyncio_sleep w (now (snd (send_heartbeat w s))) interval = Ret tt ->
  exists evs m,
    send_heartbeat w s = (Ret tt, after s (evs ++ [Log ERROR m]))
    /\ sleeps (evs ++ [Log ERROR m]) = []
    /\ heartbeat_loop w interval (S turns) s
       = heartbeat_loop w interval turns
           (after s (evs ++ [Log ERROR m; Sleep interval]))
    /\ heartbeat_loop w interval 1 s
       = (Ret Pending, after s (evs ++ [Log ERROR m; Sleep interval]))
    /\ (running w (after s (evs ++ [Log ERROR m; Sleep interval])) = true ->
        readable (server_api_path (self_config s)) ->
        readable (server_api_key (self_config s)) ->
        exists more,
          snd (heartbeat_loop w interval 2 s)
          = after s ((evs ++ [Log ERROR m; Sleep interval]) ++ more)
          /\ length (posts evs) = 1%nat
          /\ length (posts more) = 1%nat).
Proof.
  intros Hrun Hs Hu Hfail Hsleep.
  destruct (failed_tick w s u Hs Hu Hfail) as (evs & m & Htick & Hk).
  rewrite Htick in Hsleep. simpl snd in Hsleep.
  assert (Hstep : forall n,
             heartbeat_loop w interval (S n) s
             = heartbeat_loop w interval n
                 (after s (evs ++ [Log ERROR m; Sleep interval]))).
  { intros n. cbn [heartbeat_loop]. rewrite Hrun.
    unfold bind. rewrite Htick. unfold sleep. rewrite call_after, Hsleep.
    rewrite after_after, <- app_assoc. reflexivity. }
  exists evs, m. split; [exact Htick |]. split; [| split; [| split]].
  - rewrite sleeps_app. simpl. rewrite app_nil_r.
    apply (no_sleep [KLog; KPost]); auto. kind_absent.
  - apply Hstep.
  - rewrite Hstep. reflexivity.
  - intros Hrun1 Hpath Hkey.
    set (s1 := after s (evs ++ [Log ERROR m; Sleep interval])) in *.
    destruct (send_heartbeat_request w s u Hs Hu Hpath Hkey)
      as (body & logs & evs0 & _ & Hsnd0 & Hposts0).
    rewrite Htick in Hsnd0. cbn [snd] in Hsnd0. apply after_inj in Hsnd0.
    destruct (send_heartbeat_request w s1 u Hs Hu Hpath Hkey)
      as (body1 & logs1 & evs1 & _ & Hsnd1 & Hposts1).
    destruct (heartbeat_turn w interval s1 evs1 Hrun1 Hsnd1) as (rest & Hturn & Hrest).
    exists (evs1 ++ rest). split; [| split].
    + rewrite Hstep. fold s1. rewrite Hturn. unfold s1. now rewrite after_after.
    + rewrite <- Hsnd0 in Hposts0. rewrite posts_app in Hposts0. simpl in Hposts0.
      rewrite app_nil_r in Hposts0. now rewrite Hposts0.
    + rewrite posts_app, Hposts1, (no_post [KLog; KSleep] rest Hrest) by kind_absent.
      reflexivity.
Qed.

Lemma failed_heartbeat_retries_next_tick_witness :
  failed_reply (session_post unreachable (post_time unreachable kiosk) "" [] [])
  /\ exists evs m,
       send_heartbeat unreachable kiosk = (Ret tt, after kiosk (evs ++ [Log ERROR m]))
       /\ sleeps (evs ++ [Log ERROR m]) = []
       /\ heartbeat_loop unreachable 60 3 kiosk
          = heartbeat_loop unreachable 60 2
              (after kiosk (evs ++ [Log ERROR m; Sleep 60]))
       /\ heartbeat_loop unreachable 60 1 kiosk
          = (Ret Pending, after kiosk (evs ++ [Log ERROR m; Sleep 60]))
       /\ (running unreachable (after kiosk (evs ++ [Log ERROR m; Sleep 60])) = true ->
           readable (server_api_path (self_config kiosk)) ->
           readable (server_api_key (self_config kiosk)) ->
           exists more,
             snd (heartbeat_loop unreachable 60 2 kiosk)
             = after kiosk ((evs ++ [Log ERROR m; Sleep 60]) ++ more)
             /\ length (posts evs) = 1%nat
             /\ length (posts more) = 1%nat).
Proof.
  split; [apply transport_error |].
  apply (failed_heartbeat_retries_next_tick unreachable 60 2 kiosk "http://srv");
    try reflexivity.
  intros url body hs. simpl. apply transport_error.
Defined.

(** The same loop computed for two turns: request, failure, sleep, and
    again. *)
Example failed_tick_then_next_tick :
  exists info,
    heartbeat_loop unreachable 60 2 kiosk
    = (Ret Pending,
       after kiosk
         [Log ERROR (CollectFailed OSError);
          Post "http://srv/api/devices/kiosk-1/heartbeat" info
               [("Content-Type", "application/json"); ("User-Agent", "KioskAgent/1.0")];
          Log ERROR (HeartbeatFailed ClientError);
          Sleep 60;
          Log ERROR (CollectFailed OSError);
          Post "http://srv/api/devices/kiosk-1/heartbeat" info
               [("Content-Type", "application/json"); ("User-Agent", "KioskAgent/1.0")];
          Log ERROR (HeartbeatFailed ClientError);
          Sleep 60]).
Proof. eexists. reflexivity. Qed.

(** A response without commands only leaves log records. *)
Lemma quiet_on_response (w : world) (resp : response) :
  (status resp = 200%Z -> forall v, json_body resp = Ret v -> without_commands v) ->
  emits [KLog] (on_response w resp).
Proof.
  intros Hquiet. unfold on_response.
  destruct (status resp =? 200)%Z eqn:Hst; [| apply emits_log; simpl; tauto].
  apply Z.eqb_eq in Hst. specialize (Hquiet Hst).
  apply emits_bind; [apply emits_log; simpl; tauto | intros _].
  unfold process_response.
  apply emits_try_except; [| intros e; apply emits_log; simpl; tauto].
  destruct (json_body resp) as [v | x | ] eqn:Hbody.
  - destruct (Hquiet v eq_refl) as [fields [-> [Hnone | Hempty]]].
    + intros s. exists []. unfold bind, await, py_contains, ret, Py.has_key.
      rewrite Hnone. simpl. rewrite after_nil. auto.
    + intros s. exists []. unfold bind, await, py_contains, ret, Py.has_key.
      rewrite Hempty. simpl. rewrite Hempty. simpl. rewrite after_nil. auto.
  - intros s. exists []. simpl. rewrite after_nil. auto.
  - intros s. exists []. simpl. rewrite after_nil. auto.
Qed.

(** C4.  When the 200 response to a heartbeat has a body without a
    [commands] field, or with an empty [commands] array, the tick adds
    no dispatch and no executor call to the history: [process_commands]
    takes up no command. *)
Theorem heartbeat_without_commands_dispatches_nothing (w : world) (s : agent) :
  (forall url body hs resp v,
      session_post w (post_time w s) url body hs = Ret resp ->
      status resp = 200%Z ->
      json_body resp = Ret v ->
      without_commands v) ->
  exists evs,
    snd (send_heartbeat w s) = after s evs
    /\ dispatched evs = []
    /\ invocations evs = [].
Proof.
  intros Hquiet.
  assert (Hgoal : exists evs,
             snd (send_heartbeat w s) = after s evs
             /\ Forall (fun ev => In (kind_of ev) [KLog; KPost]) evs).
  { destruct (self_session s) eqn:Hs.
    2:{ exists []. unfold send_heartbeat, bind, attribute. rewrite Hs. simpl.
        rewrite after_nil. auto. }
    destruct (server_url (self_config s)) as [ | | u] eqn:Hu.
    1:{ exists [Log ERROR (HeartbeatFailed ConfigError)].
        unfold send_heartbeat, bind, attribute, try_except, config_get.
        rewrite Hs. cbn [negb]. cbv beta iota. rewrite Hu.
        split; [reflexivity | kinds_listed]. }
    1:{ exists [Log ERROR (HeartbeatFailed InterpolationError)].
        unfold send_heartbeat, bind, attribute, try_except, config_get.
        rewrite Hs. cbn [negb]. cbv beta iota. rewrite Hu.
        split; [reflexivity | kinds_listed]. }
    assert (Hbad : server_api_path (self_config s) = Unreadable
                   \/ server_api_key (self_config s) = Unreadable ->
                   exists evs,
                     snd (send_heartbeat w s) = after s evs
                     /\ Forall (fun ev => In (kind_of ev) [KLog; KPost]) evs).
    { intros Hbad. exists [Log ERROR (HeartbeatFailed InterpolationError)].
      rewrite (send_heartbeat_unreadable w s u Hs Hu Hbad).
      split; [reflexivity | kinds_listed]. }
    destruct (readable_or (server_api_path (self_config s))) as [Hpath | Hpath];
      [| now apply Hbad; left].
    destruct (readable_or (server_api_key (self_config s))) as [Hkey | Hkey];
      [| now apply Hbad; right].
    clear Hbad.
    destruct (send_heartbeat_run w s u Hs Hu Hpath Hkey)
      as (info & logs & url & hs & Hl & Ht & Hrun).
    specialize (Hquiet url info hs). rewrite Ht in Hquiet.
    assert (Hlogs : Forall (fun ev => In (kind_of ev) [KLog; KPost]) logs)
      by (apply logs_allowed; [simpl; tauto | exact Hl]).
    rewrite Hrun. unfold try_except, bind. rewrite call_after. cbv beta.
    rewrite after_after.
    destruct (session_post w (now (after s logs)) url info hs)
      as [resp | [e | | | ] | ] eqn:Hpost;
      try (exists (logs ++ [Post url info hs]); simpl;
           split; [reflexivity | apply Forall_app; split; [exact Hlogs | kinds_listed]]).
    - destruct (quiet_on_response w resp
                  (fun Hst v Hbody => Hquiet resp v eq_refl Hst Hbody)
                  (after s (logs ++ [Post url info hs])))
        as [evs [Hh Hk]].
      assert (Hall : Forall (fun ev => In (kind_of ev) [KLog; KPost])
                       ((logs ++ [Post url info hs]) ++ evs)).
      { apply Forall_app; split;
          [apply Forall_app; split; [exact Hlogs | kinds_listed] |].
        eapply Forall_impl; [| exact Hk]. simpl. tauto. }
      rewrite after_after in Hh.
      destruct (on_response w resp (after s (logs ++ [Post url info hs])))
        as [[[] | [e | | | ] | ] s2]; simpl in Hh; subst s2; simpl;
        try (exists ((logs ++ [Post url info hs]) ++ evs);
             split; [reflexivity | exact Hall]).
      exists (((logs ++ [Post url info hs]) ++ evs) ++ [Log ERROR (HeartbeatFailed e)]).
      split; [same_agent |].
      apply Forall_app; split; [exact Hall | kinds_listed].
    - exists ((logs ++ [Post url info hs]) ++ [Log ERROR (HeartbeatFailed e)]).
      unfold log. rewrite record_after, after_after. split; [reflexivity |].
      apply Forall_app; split;
        [apply Forall_app; split; [exact Hlogs | kinds_listed] | kinds_listed]. }
  destruct Hgoal as [evs [Hh Hk]].
  exists evs. split; [exact Hh |]. split.
  - apply (no_dispatch [KLog; KPost]); auto. kind_absent.
  - apply (no_invocation [KLog; KPost]); auto. kind_absent.
Qed.

Lemma heartbeat_without_commands_dispatches_nothing_witness :
  without_commands (JObj [])
  /\ exists evs,
       snd (send_heartbeat idle_server kiosk) = after kiosk evs
       /\ dispatched evs = []
       /\ invocations evs = [].
Proof.
  assert (H : without_commands (JObj [])).
  { exists []. split; [reflexivity | left; reflexivity]. }
  split; [exact H |].
  apply (heartbeat_without_commands_dispatches_nothing idle_server kiosk).
  intros url body hs resp v Hpost Hst Hbody.
  simpl in Hpost. inversion Hpost; subst resp.
  simpl in Hbody. inversion Hbody; subst v. exact H.
Defined.

(** C5.  When the 200 response to a heartbeat carries a [commands]
    array, the tick takes up its elements one by one in array order, up to
    some element [k] (the whole array when every element is a mapping,
    the reboot command comes back and the API path and the key can be
    read), and calls their actions in that order:
    of two commands taken up, the action of the one that comes first in
    the array is called first. *)
Theorem heartbeat_commands_in_array_order
  (w : world) (s : agent) (u : string) (resp : response) (fields : dict)
  (cmds : list json) :
  self_session s = true ->
  server_url (self_config s) = Present u ->
  (forall url body hs, session_post w (post_time w s) url body hs = Ret resp) ->
  status resp = 200%Z ->
  json_body resp = Ret (JObj fields) ->
  Py.lookup "commands" fields = Some (JArr cmds) ->
  exists evs k,
    snd (send_heartbeat w s) = after s evs
    /\ dispatched evs = firstn k cmds
    /\ invocations evs = flat_map planned (firstn k cmds)
    /\ (forall i j ci cj a b,
           (i < j)%nat -> (j < k)%nat ->
           nth_error cmds i = Some ci -> nth_error cmds j = Some cj ->
           In a (planned ci) -> In b (planned cj) ->
           exists p q,
             (p < q)%nat
             /\ nth_error evs p = Some (Invoke a)
             /\ nth_error evs q = Some (Invoke b))
    /\ (Forall (fun c => is_mapping c = true) cmds -> responsive w ->
        readable (server_api_path (self_config s)) ->
        readable (server_api_key (self_config s)) ->
        k = length cmds).
Proof.
  intros Hs Hu Hpost Hst Hbody Hcmds.
  assert (Hbad : server_api_path (self_config s) = Unreadable
                 \/ server_api_key (self_config s) = Unreadable ->
                 exists evs k,
                   snd (send_heartbeat w s) = after s evs
                   /\ dispatched evs = firstn k cmds
                   /\ invocations evs = flat_map planned (firstn k cmds)
                   /\ (forall i j ci cj a b,
                          (i < j)%nat -> (j < k)%nat ->
                          nth_error cmds i = Some ci -> nth_error cmds j = Some cj ->
                          In a (planned ci) -> In b (planned cj) ->
                          exists p q,
                            (p < q)%nat
                            /\ nth_error evs p = Some (Invoke a)
                            /\ nth_error evs q = Some (Invoke b))
                   /\ (Forall (fun c => is_mapping c = true) cmds -> responsive w ->
                       readable (server_api_path (self_config s)) ->
                       readable (server_api_key (self_config s)) ->
                       k = length cmds)).
  { intros Hbad. exists [Log ERROR (HeartbeatFailed InterpolationError)], 0%nat.
    rewrite (send_heartbeat_unreadable w s u Hs Hu Hbad).
    split; [reflexivity |]. split; [reflexivity |]. split; [reflexivity |]. split.
    - intros i j ci cj a b _ Hj. lia.
    - intros _ _ Hp Hk. exfalso. destruct Hbad as [H | H]; [now apply Hp | now apply Hk]. }
  destruct (readable_or (server_api_path (self_config s))) as [Hpath | Hpath];
    [| now apply Hbad; left].
  destruct (readable_or (server_api_key (self_config s))) as [Hkey | Hkey];
    [| now apply Hbad; right].
  clear Hbad.
  destruct (send_heartbeat_run w s u Hs Hu Hpath Hkey)
    as (info & logs & url & hs & Hl & Ht & Hrun).
  specialize (Hpost url info hs). rewrite Ht in Hpost.
  set (pre := logs ++ [Post url info hs; Log DEBUG HeartbeatSent]).
  destruct (dispatch_some w cmds (after s pre)) as [chunks (Hs2 & Hchunks & Hfull)].
  assert (Hfinal : exists post,
             snd (send_heartbeat w s) = after s ((pre ++ concat chunks) ++ post)
             /\ Forall (fun ev => kind_of ev = KLog) post).
  { rewrite Hrun. unfold try_except, bind. rewrite call_after. cbv beta.
    rewrite Hpost. unfold on_response. rewrite Hst, Z.eqb_refl.
    unfold bind, log. cbv beta. rewrite record_after.
    unfold process_response, try_except, bind, await. rewrite Hbody.
    unfold py_contains, ret, Py.has_key. rewrite Hcmds.
    unfold py_getitem. rewrite Hcmds. unfold ret.
    unfold process_commands, bind, py_iter, ret.
    rewrite !after_after. simpl app. fold pre.
    destruct (for_each (dispatch w) cmds (after s pre)) as [[[] | [e | | | ] | ] s2];
      simpl in Hs2; subst s2; simpl;
      try (exists []; rewrite app_nil_r, after_after; split; [reflexivity | constructor]).
    exists [Log ERROR (ResponseFailed e)].
    split; [same_agent | repeat constructor]. }
  destruct Hfinal as (post & Hfinal & Hpostlogs).
  destruct (only_logs_quiet logs Hl) as (_ & Hd & Hi).
  destruct (only_logs_quiet post Hpostlogs) as (_ & Hd' & Hi').
  destruct (chunks_read _ chunks Hchunks) as [Hcd Hci].
  exists ((pre ++ concat chunks) ++ post), (length chunks).
  split; [exact Hfinal |]. split; [| split; [| split]].
  - unfold pre. rewrite !dispatched_app, Hd, Hd', Hcd. simpl. now rewrite app_nil_r.
  - unfold pre. rewrite !invocations_app, Hi, Hi', Hci. simpl. now rewrite app_nil_r.
  - intros i j ci cj a b Hij Hjk Hci' Hcj' Ha Hb.
    assert (Hi1 : nth_error (firstn (length chunks) cmds) i = Some ci).
    { rewrite nth_error_firstn.
      replace (i <? length chunks)%nat with true; [exact Hci' |].
      symmetry. apply Nat.ltb_lt. lia. }
    assert (Hj1 : nth_error (firstn (length chunks) cmds) j = Some cj).
    { rewrite nth_error_firstn.
      replace (j <? length chunks)%nat with true; [exact Hcj' |].
      symmetry. apply Nat.ltb_lt. lia. }
    destruct (invoked_in_order _ chunks Hchunks i j ci cj a b Hij Hi1 Hj1 Ha Hb)
      as (p & q & Hpq & Hp & Hq).
    assert (Hplen : (p < length (concat chunks))%nat)
      by (apply nth_error_Some; congruence).
    assert (Hqlen : (q < length (concat chunks))%nat)
      by (apply nth_error_Some; congruence).
    exists (length pre + p)%nat, (length pre + q)%nat.
    split; [lia |].
    split; (rewrite nth_error_app1 by (rewrite length_app; lia));
      rewrite nth_error_app2 by lia.
    + replace (length pre + p - length pre)%nat with p by lia. exact Hp.
    + replace (length pre + q - length pre)%nat with q by lia. exact Hq.
  - intros Hmaps Hresp _ _. now destruct (Hfull Hmaps Hresp).
Qed.

(** Two [configure] commands with payloads [a:1] and [a:2]. *)
Lemma heartbeat_commands_in_array_order_witness :
  exists evs k,
    snd (send_heartbeat configuring_server kiosk) = after kiosk evs
    /\ dispatched evs = firstn k [configure 1; configure 2]
    /\ invocations evs = flat_map planned (firstn k [configure 1; configure 2])
    /\ (forall i j ci cj a b,
           (i < j)%nat -> (j < k)%nat ->
           nth_error [configure 1; configure 2] i = Some ci ->
           nth_error [configure 1; configure 2] j = Some cj ->
           In a (planned ci) -> In b (planned cj) ->
           exists p q,
             (p < q)%nat
             /\ nth_error evs p = Some (Invoke a)
             /\ nth_error evs q = Some (Invoke b))
    /\ (Forall (fun c => is_mapping c = true) [configure 1; configure 2] ->
        responsive configuring_server ->
        readable (server_api_path (self_config kiosk)) ->
        readable (server_api_key (self_config kiosk)) ->
        k = length [configure 1; configure 2]).
Proof.
  apply (heartbeat_commands_in_array_order configuring_server kiosk "http://srv"
           two_configures [("commands", JArr [configure 1; configure 2])]
           [configure 1; configure 2]);
    reflexivity.
Defined.

(** The same tick computed: [a:1] is configured before [a:2]. *)
Example configure_one_then_two :
  invocations (history (snd (send_heartbeat configuring_server kiosk)))
  = [ConfigureSystem (JObj [("a", JInt 1)]); ConfigureSystem (JObj [("a", JInt 2)])].
Proof. reflexivity. Qed.

(** ** The command-stream loop *)

Section AddsRules.

Context {A B : Type}.
Variable allowed : list kind.

Lemma adds_bind (m : prog agent A) (k : A -> prog agent B) :
  adds allowed m -> (forall a, adds allowed (k a)) -> adds allowed (bind m k).
Proof.
  intros Hm Hk s. unfold bind.
  destruct (Hm s) as [evs [He Hf]].
  destruct (m s) as [[a | x | ] s1]; simpl in *; try (exists evs; now auto).
  destruct (Hk a s1) as [evs2 [He2 Hf2]].
  exists (evs ++ evs2). rewrite He2, He, app_assoc. split; auto.
  apply Forall_app; auto.
Qed.

Lemma adds_try_except (body : prog agent A) (handler : error -> prog agent A) :
  adds allowed body -> (forall e, adds allowed (handler e)) ->
  adds allowed (try_except body handler).
Proof.
  intros Hm Hk s. unfold try_except.
  destruct (Hm s) as [evs [He Hf]].
  destruct (body s) as [[a | [e | | | ] | ] s1]; simpl in *;
    try (exists evs; now auto).
  destruct (Hk e s1) as [evs2 [He2 Hf2]].
  exists (evs ++ evs2). rewrite He2, He, app_assoc. split; auto.
  apply Forall_app; auto.
Qed.

Lemma adds_async_with (c : connection) (body : prog agent A) :
  In KClose allowed -> adds allowed body -> adds allowed (async_with c body).
Proof.
  intros Hc Hb s. unfold async_with.
  destruct (Hb s) as [evs [He Hf]].
  destruct (body s) as [[a | x | ] s1]; simpl in *;
    try (exists evs; now auto);
    (exists (evs ++ [StreamClose c]); rewrite He, app_assoc; split; auto;
     apply Forall_app; split; auto).
Qed.

End AddsRules.

Lemma adds_set_websocket allowed c : adds allowed (set_websocket c).
Proof. intros s; exists []; simpl; now rewrite app_nil_r. Qed.

Lemma adds_connect_websocket (w : world) : adds stream_kinds (connect_websocket w).
Proof.
  unfold connect_websocket.
  apply adds_try_except;
    [| intros e; apply emits_adds, emits_log; simpl; tauto].
  do 3 (apply adds_bind; [apply emits_adds; emits_basic | intros ?]).
  apply adds_bind;
    [apply emits_adds; unfold stream_kinds; emits_basic | intros websocket].
  apply adds_async_with; [simpl; tauto |].
  apply adds_bind; [apply adds_set_websocket | intros _].
  apply adds_bind; [apply emits_adds, emits_log; simpl; tauto | intros _].
  apply emits_adds.
  apply (emits_weaken message_kinds); [kinds_included | apply emits_receive].
Qed.

Lemma logged_never_raises {A} (body : prog agent A) (handler : error -> prog agent A)
  (s : agent) (e : error) :
  (forall e' s', fst (handler e' s') <> Raise (Exc e)) ->
  fst (try_except body handler s) <> Raise (Exc e).
Proof.
  intros Hh. unfold try_except.
  destruct (body s) as [[a | [e' | | | ] | ] s1]; simpl; try discriminate.
  apply Hh.
Qed.

(** [connect_websocket] keeps every error to itself. *)
Lemma connect_websocket_catches (w : world) (s : agent) (e : error) :
  fst (connect_websocket w s) <> Raise (Exc e).
Proof.
  unfold connect_websocket. apply logged_never_raises.
  intros e' s'. simpl. discriminate.
Qed.

(** X22.  The branch of [websocket_loop] that sleeps before reconnecting
    is never taken: no run of the loop, however long, ever sleeps. *)
Lemma websocket_loop_never_sleeps (w : world) (turns : nat) (s : agent) :
  exists evs,
    history (snd (websocket_loop w turns s)) = history s ++ evs
    /\ sleeps evs = [].
Proof.
  revert s. induction turns as [| n IH]; intros s.
  - exists []. simpl. now rewrite app_nil_r.
  - cbn [websocket_loop].
    destruct (running w s); [| exists []; simpl; now rewrite app_nil_r].
    destruct (adds_connect_websocket w s) as [evs [Hh Hk]].
    assert (Hq : sleeps evs = []).
    { apply (no_sleep stream_kinds); auto.
      unfold stream_kinds, message_kinds, dispatch_kinds. kind_absent. }
    pose proof (connect_websocket_catches w s) as Hcatch.
    destruct (connect_websocket w s) as [[[] | [e | | | ] | ] s1]; simpl in *;
      try (exists evs; now auto).
    + destruct (IH s1) as [evs2 [Hh2 Hq2]].
      exists (evs ++ evs2). rewrite Hh2, Hh, app_assoc, sleeps_app, Hq, Hq2. auto.
    + exfalso. now apply (Hcatch e).
Qed.

(** A refused connection: the attempt is made, the failure logged, and
    [connect_websocket] returns. *)
Lemma connect_websocket_refused (w : world) (s : agent) (u : string) (e : error) :
  server_url (self_config s) = Present u ->
  readable (server_api_key (self_config s)) ->
  (forall url hs, websockets_connect w (now s) url hs = Raise (Exc e)) ->
  exists url hs,
    connect_websocket w s
    = (Ret tt, after s [StreamOpen url hs; Log ERROR (StreamFailed e)]).
Proof.
  intros Hu Hread Hfail.
  destruct (server_api_key (self_config s)) as [ | | key] eqn:Hkey;
    try (exfalso; now apply Hread);
    do 2 eexists;
    unfold connect_websocket, try_except, bind, config_get, config_get_fallback,
      attribute;
    rewrite Hu, Hkey; cbv beta iota; rewrite call_after; cbv beta;
    rewrite Hfail; unfold log; rewrite record_after, after_after; reflexivity.
Qed.

(** C2 (where the code departs from it).  When a connection attempt
    (made once the address and the key are read) fails,
    [connect_websocket] logs the failure and returns normally; the
    loop therefore goes straight into its next turn and makes the next
    attempt without any sleep in between. *)
Theorem websocket_loop_retries_without_cooldown
  (w : world) (turns : nat) (s : agent) (u : string) (e : error) :
  running w s = true ->
  server_url (self_config s) = Present u ->
  readable (server_api_key (self_config s)) ->
  (forall url hs, websockets_connect w (now s) url hs = Raise (Exc e)) ->
  exists url hs,
    connect_websocket w s
    = (Ret tt, after s [StreamOpen url hs; Log ERROR (StreamFailed e)])
    /\ websocket_loop w (S turns) s
       = websocket_loop w turns (after s [StreamOpen url hs; Log ERROR (StreamFailed e)]).
Proof.
  intros Hrun Hu Hread Hfail.
  destruct (connect_websocket_refused w s u e Hu Hread Hfail) as (url & hs & Hconn).
  exists url, hs. split; [exact Hconn |].
  cbn [websocket_loop]. rewrite Hrun, Hconn. reflexivity.
Qed.

Lemma websocket_loop_retries_without_cooldown_witness :
  running unreachable kiosk = true
  /\ exists url hs,
       connect_websocket unreachable kiosk
       = (Ret tt, after kiosk [StreamOpen url hs; Log ERROR (StreamFailed OSError)])
       /\ websocket_loop unreachable 2 kiosk
          = websocket_loop unreachable 1
              (after kiosk [StreamOpen url hs; Log ERROR (StreamFailed OSError)]).
Proof.
  split; [reflexivity |].
  apply (websocket_loop_retries_without_cooldown unreachable 1 kiosk "http://srv" OSError);
    first [reflexivity | discriminate].
Defined.

(** Two attempts in a row against a server that refuses the connection:
    nothing separates them. *)
Example two_attempts_back_to_back :
  history (snd (websocket_loop unreachable 2 kiosk))
  = [StreamOpen "ws://srv/ws/devices/kiosk-1" [];
     Log ERROR (StreamFailed OSError);
     StreamOpen "ws://srv/ws/devices/kiosk-1" [];
     Log ERROR (StreamFailed OSError)].
Proof. reflexivity. Qed.

(** X23.  While the flag is set and every connection attempt fails, the
    loop is still going round after any number of turns. *)
Lemma websocket_loop_keeps_trying (w : world) (u : string) (turns : nat) :
  (forall t, running_at w t = true) ->
  (forall t url hs, exists e, websockets_connect w t url hs = Raise (Exc e)) ->
  forall s,
    server_url (self_config s) = Present u ->
    fst (websocket_loop w turns s) = Ret Pending.
Proof.
  intros Hrun Hfail. induction turns as [| n IH]; intros s Hu; [reflexivity |].
  cbn [websocket_loop]. unfold running. rewrite Hrun.
  unfold connect_websocket, try_except, bind, config_get, config_get_fallback,
    attribute.
  rewrite Hu. cbv beta iota.
  destruct (server_api_key (self_config s)) as [ | | key]; cbv beta iota;
    try (rewrite call_after; cbv beta;
         match goal with
         | |- context [websockets_connect w ?t ?url ?hs] =>
             destruct (Hfail t url hs) as [e He]; rewrite He
         end);
    unfold log; rewrite record_after; apply IH; exact Hu.
Qed.

(** X21.  While the flag is set, the sleep returns and every heartbeat
    fails, the heartbeat loop is still going round after any number of
    turns, and it has slept [interval] once per turn. *)
Lemma heartbeat_loop_keeps_ticking (w : world) (u : string) (interval : Z)
  (turns : nat) :
  (forall t, running_at w t = true) ->
  (forall t secs, asyncio_sleep w t secs = Ret tt) ->
  (forall t url body hs, failed_reply (session_post w t url body hs)) ->
  forall s,
    self_session s = true ->
    server_url (self_config s) = Present u ->
    exists evs,
      heartbeat_loop w interval turns s = (Ret Pending, after s evs)
      /\ sleeps evs = repeat interval turns.
Proof.
  intros Hrun Hsleep Hfail. induction turns as [| n IH]; intros s Hs Hu.
  - exists []. simpl. rewrite after_nil. auto.
  - destruct (failed_tick w s u Hs Hu (fun url body hs => Hfail _ url body hs))
      as (evs & m & Htick & Hk).
    destruct (IH (after s (evs ++ [Log ERROR m; Sleep interval])) Hs Hu)
      as (more & Hloop & Hmore).
    exists ((evs ++ [Log ERROR m; Sleep interval]) ++ more).
    cbn [heartbeat_loop]. unfold running. rewrite Hrun.
    unfold bind. rewrite Htick. unfold sleep. rewrite call_after, Hsleep.
    rewrite after_after, <- app_assoc. simpl app.
    rewrite Hloop, after_after. split; [reflexivity |].
    rewrite !sleeps_app, Hmore. simpl.
    rewrite (no_sleep [KLog; KPost] evs Hk) by kind_absent. reflexivity.
Qed.

(** A heartbeat whose batch starts with a string: the string is taken
    up, the failure is logged by [send_heartbeat], and the [configure]
    command that follows is never dispatched. *)
Example heartbeat_loses_rest_of_batch :
  let w := steady_world (Ret tt)
             (Ret {| status := 200;
                     json_body := Ret (JObj [("commands", JArr broken_batch)]) |})
             (Raise (Exc OSError)) in
  fst (send_heartbeat w kiosk) = Ret tt
  /\ dispatched (history (snd (send_heartbeat w kiosk))) = [JStr "oops"]
  /\ invocations (history (snd (send_heartbeat w kiosk))) = [].
Proof. repeat split. Qed.

(** ** More on the telemetry: the interface list *)

Module InterfaceFacts.
Import Telemetry.

Lemma lstrip_head (s : string) :
  Py.lstrip s = EmptyString
  \/ exists c r, Py.lstrip s = String c r /\ Py.is_space c = false.
Proof.
  induction s as [| a r IH]; simpl; [now left |].
  destruct (Py.is_space a) eqn:Ha; [exact IH |].
  right. now exists a, r.
Qed.

Lemma rstrip_head (c : ascii) (r : string) :
  Py.is_space c = false -> exists r', Py.rstrip (String c r) = String c r'.
Proof.
  intros Hc. simpl. destruct (Py.rstrip r) as [| b k].
  - rewrite Hc. now exists EmptyString.
  - now exists (String b k).
Qed.

Lemma strip_head (s : string) :
  Py.strip s = EmptyString
  \/ exists c r, Py.strip s = String c r /\ Py.is_space c = false.
Proof.
  unfold Py.strip. destruct (lstrip_head s) as [-> | (c & r & -> & Hc)].
  - now left.
  - right. destruct (rstrip_head c r Hc) as [r' Hr]. now exists c, r'.
Qed.

(** A stripped line never starts with a blank. *)
Lemma strip_not_spaced (s : string) : String.prefix " " (Py.strip s) = false.
Proof.
  destruct (strip_head s) as [-> | (c & r & -> & Hc)]; [reflexivity |].
  cbn [String.prefix].
  destruct (ascii_dec " " c) as [<- | _]; [discriminate Hc | reflexivity].
Qed.

Lemma split_on_nonempty (c : ascii) (s : string) : Py.split_on c s <> [].
Proof.
  destruct s as [| a r]; simpl; [discriminate |].
  destruct (Ascii.eqb a c); [discriminate |].
  destruct (Py.split_on c r); discriminate.
Qed.

(** [split] gives two parts or more exactly when the separator occurs. *)
Lemma split_on_two (c : ascii) (s : string) :
  (2 <=? length (Py.split_on c s))%nat = has_char c s.
Proof.
  unfold has_char. induction s as [| a r IH]; [reflexivity |].
  simpl Py.split_on. simpl list_ascii_of_string. simpl existsb.
  rewrite (Ascii.eqb_sym c a).
  destruct (Ascii.eqb a c); simpl.
  - pose proof (split_on_nonempty c r) as Hne.
    destruct (Py.split_on c r); [contradiction | reflexivity].
  - rewrite <- IH. pose proof (split_on_nonempty c r) as Hne.
    destruct (Py.split_on c r) as [| hd tl]; [contradiction | reflexivity].
Qed.

Lemma has_char_lstrip (c : ascii) (s : string) :
  Py.is_space c = false -> has_char c (Py.lstrip s) = has_char c s.
Proof.
  intros Hc. unfold has_char. induction s as [| a r IH]; [reflexivity |].
  simpl. destruct (Py.is_space a) eqn:Ha; [| reflexivity].
  rewrite IH. destruct (Ascii.eqb_spec c a) as [-> | _]; [congruence | reflexivity].
Qed.

Lemma has_char_rstrip (c : ascii) (s : string) :
  Py.is_space c = false -> has_char c (Py.rstrip s) = has_char c s.
Proof.
  intros Hc. unfold has_char. induction s as [| a r IH]; [reflexivity |].
  simpl. destruct (Py.rstrip r) as [| b k].
  - simpl in IH. rewrite <- IH. rewrite orb_false_r.
    destruct (Py.is_space a) eqn:Ha; simpl.
    + destruct (Ascii.eqb_spec c a) as [-> | _]; [congruence | reflexivity].
    + now rewrite orb_false_r.
  - simpl. simpl in IH. now rewrite IH.
Qed.

Lemma has_char_strip (c : ascii) (s : string) :
  Py.is_space c = false -> has_char c (Py.strip s) = has_char c s.
Proof.
  intros Hc. unfold Py.strip. now rewrite has_char_rstrip, has_char_lstrip.
Qed.

(** What one line does to the state of the loop: nothing, or it opens an
    interface without addresses. *)
Lemma parse_line_cases (interfaces : list interface) (current : option interface)
  (raw : string) :
  (has_char ":" raw = false
   /\ parse_line (interfaces, current) raw = (interfaces, current))
  \/ (has_char ":" raw = true
      /\ exists name state,
           (state = "UP" \/ state = "DOWN")
           /\ parse_line (interfaces, current) raw
              = (match current with
                 | Some c => interfaces ++ [c]
                 | None => interfaces
                 end,
                 Some {| if_name := name; if_state := state; if_addresses := [] |})).
Proof.
  unfold parse_line.
  rewrite strip_not_spaced, split_on_two, (has_char_strip ":" raw) by reflexivity.
  simpl negb. rewrite andb_true_r.
  destruct (has_char ":" raw) eqn:Hcolon.
  - right. split; [reflexivity |].
    assert (Hne : Py.truthy (Py.strip raw) = true).
    { rewrite <- (has_char_strip ":" raw) in Hcolon by reflexivity.
      destruct (Py.strip raw); [discriminate Hcolon | reflexivity]. }
    rewrite Hne.
    eexists. exists (if Py.contains "UP" (Py.strip raw) then "UP" else "DOWN").
    split; [destruct (Py.contains "UP" (Py.strip raw)); auto | reflexivity].
  - left. split; [reflexivity |].
    destruct (Py.truthy (Py.strip raw)) eqn:Hne; [reflexivity |].
    destruct (Py.strip raw); [| discriminate Hne].
    destruct current; reflexivity.
Qed.


Lemma parse_lines_held (lines : list string) :
  forall acc,
    held (fold_left parse_line lines acc)
    = (held acc + length (filter (has_char ":") lines))%nat.
Proof.
  induction lines as [| raw rest IH]; intros [ifs cur];
    cbn [fold_left filter]; [simpl; lia |].
  rewrite IH.
  destruct (parse_line_cases ifs cur raw)
    as [[Hc ->] | [Hc (name & state & _ & ->)]]; rewrite Hc; [reflexivity |].
  unfold held. simpl. destruct cur; simpl; [rewrite length_app; simpl |]; lia.
Qed.


(** X2.  Every line of the output that holds a colon is reported as an
    interface of its own, address lines such as those of IPv6 included:
    there are as many entries as lines with a colon. *)
Theorem parse_network_interfaces_counts_colon_lines (ip_output : string) :
  exists items,
    parse_network_interfaces ip_output = JArr items
    /\ length items
       = length (filter (has_char ":") (Py.split_on newline ip_output)).
Proof.
  unfold parse_network_interfaces.
  pose proof (parse_lines_held (Py.split_on newline ip_output) ([], None)) as H.
  destruct (fold_left parse_line (Py.split_on newline ip_output) ([], None))
    as [ifs cur].
  unfold held in H. simpl in H.
  eexists. split; [reflexivity |].
  rewrite length_map. destruct cur; [rewrite length_app; simpl |]; lia.
Qed.

End InterfaceFacts.

(** ** More on the telemetry: sections that are lost *)

Module SnapshotFacts.
Import Telemetry.

Lemma confined_scan_cpuinfo (lines : list string) :
  confined ["cpu_model"] (scan_cpuinfo lines).
Proof.
  intros info k Hk. induction lines as [| line rest IH]; simpl; [reflexivity |].
  destruct (String.prefix "model name" line); [| exact IH].
  unfold bind, item.
  destruct (nth_error (Py.split_on ":" line) 1); simpl; [| reflexivity].
  apply TelemetryFacts.lookup_store_other. intros ->. apply Hk. now left.
Qed.

(** When /proc/meminfo cannot be read, the collection ends with an error
    at the latest there, having touched [cpu_model] at most. *)
Lemma collect_stops_at_meminfo (h : host) (info : dict) (e : error) :
  read_text h "/proc/meminfo" = inl e ->
  exists e' info',
    collect h info = (Raise (Exc e'), info')
    /\ forall k, k <> "cpu_model" -> Py.lookup k info' = Py.lookup k info.
Proof.
  intros Hmem. unfold collect. unfold bind at 1.
  destruct (read_text h "/proc/cpuinfo") as [e0 | cpu_info]; simpl.
  - exists e0, info. auto.
  - unfold bind at 1. simpl. unfold bind at 1.
    pose proof (confined_scan_cpuinfo (Py.split_on newline cpu_info)
                  (Py.store "cpu_model" (JStr "Unknown") info)) as Hkeep.
    destruct (TelemetryFacts.gentle_scan_cpuinfo (Py.split_on newline cpu_info)
                (Py.store "cpu_model" (JStr "Unknown") info)) as [_ Hres].
    destruct (scan_cpuinfo (Py.split_on newline cpu_info)
                (Py.store "cpu_model" (JStr "Unknown") info)) as [r info1].
    simpl in Hkeep, Hres.
    assert (Hsame : forall k, k <> "cpu_model" -> Py.lookup k info1 = Py.lookup k info).
    { intros k Hk. rewrite Hkeep by (simpl; intuition).
      now apply TelemetryFacts.lookup_store_other. }
    destruct Hres as [[[] ->] | [e1 ->]].
    + unfold bind at 1. rewrite Hmem. simpl. exists e, info1. auto.
    + exists e1, info1. auto.
Qed.

(** X3.  On a host where /proc/cpuinfo cannot be read, the snapshot is
    the five base fields and nothing else, whatever else could have been
    collected, and the failure is logged once. *)
Theorem snapshot_without_cpuinfo (w : world) (s : agent) (e : error) :
  read_text (host_at w (now s)) "/proc/cpuinfo" = inl e ->
  get_system_info w s
  = (Ret (base_info (self_device_id s) (host_at w (now s))),
     after s [Log ERROR (CollectFailed e)]).
Proof.
  intros Hcpu. unfold get_system_info, collect. unfold bind at 1.
  rewrite Hcpu. reflexivity.
Qed.

Lemma snapshot_without_cpuinfo_witness :
  read_text (host_at unreachable (now kiosk)) "/proc/cpuinfo" = inl OSError
  /\ get_system_info unreachable kiosk
     = (Ret (base_info (self_device_id kiosk) (host_at unreachable (now kiosk))),
        after kiosk [Log ERROR (CollectFailed OSError)]).
Proof.
  split; [reflexivity |].
  apply (snapshot_without_cpuinfo unreachable kiosk OSError). reflexivity.
Defined.

(** X4.  When /proc/meminfo cannot be read, everything that would have
    been collected after it is lost: the snapshot differs from the base
    fields in [cpu_model] at most, so it holds no disk, network, load or
    temperature entry, and one failure is logged. *)
Theorem snapshot_stops_at_meminfo (w : world) (s : agent) (e : error) :
  read_text (host_at w (now s)) "/proc/meminfo" = inl e ->
  exists info e',
    get_system_info w s = (Ret info, after s [Log ERROR (CollectFailed e')])
    /\ (forall k, k <> "cpu_model" ->
          Py.lookup k info
          = Py.lookup k (base_info (self_device_id s) (host_at w (now s))))
    /\ Forall (fun k => Py.has_key k info = false)
         ["memory_total"; "memory_available"; "disk_total"; "disk_free";
          "disk_used"; "network_interfaces"; "load_average"; "temperature"].
Proof.
  intros Hmem. unfold get_system_info.
  destruct (collect_stops_at_meminfo (host_at w (now s))
              (base_info (self_device_id s) (host_at w (now s))) e Hmem)
    as (e' & info & Hrun & Hsame).
  rewrite Hrun. exists info, e'. split; [reflexivity |]. split; [exact Hsame |].
  repeat (constructor;
          [unfold Py.has_key; rewrite Hsame by discriminate; reflexivity |]).
  constructor.
Qed.

Lemma snapshot_stops_at_meminfo_witness :
  (exists text, read_text (host_at cpu_only_world (now kiosk)) "/proc/cpuinfo" = inr text)
  /\ read_text (host_at cpu_only_world (now kiosk)) "/proc/meminfo" = inl OSError
  /\ exists info e',
       get_system_info cpu_only_world kiosk
       = (Ret info, after kiosk [Log ERROR (CollectFailed e')])
       /\ (forall k, k <> "cpu_model" ->
             Py.lookup k info
             = Py.lookup k (base_info (self_device_id kiosk)
                              (host_at cpu_only_world (now kiosk))))
       /\ Forall (fun k => Py.has_key k info = false)
            ["memory_total"; "memory_available"; "disk_total"; "disk_free";
             "disk_used"; "network_interfaces"; "load_average"; "temperature"].
Proof.
  split; [eexists; reflexivity |]. split; [reflexivity |].
  apply (snapshot_stops_at_meminfo cpu_only_world kiosk OSError). reflexivity.
Defined.

(** The same snapshot computed: the processor model was collected, the
    disk and the interfaces, which the host would have answered for, were
    not. *)
Example snapshot_of_cpu_only_host :
  get_system_info cpu_only_world kiosk
  = (Ret [("device_id", JStr "kiosk-1");
          ("hostname", JStr "kiosk");
          ("kernel", JStr "6.1.0");
          ("architecture", JStr "x86_64");
          ("timestamp", JStr "2024-01-01T00:00:00+00:00");
          ("cpu_model", JStr "Test CPU")],
     after kiosk [Log ERROR (CollectFailed OSError)]).
Proof. reflexivity. Qed.

End SnapshotFacts.

(** ** The device identity *)

Module IdentityFacts.
Import Identity.

Lemma substring_short (n : nat) (s : string) :
  (String.length (String.substring 0 n s) <= n)%nat.
Proof.
  revert s. induction n as [| n IH]; intros [| c r]; simpl; try lia.
  specialize (IH r). lia.
Qed.

Lemma has_char_substring (c : ascii) (n : nat) (s : string) :
  has_char c s = false -> has_char c (String.substring 0 n s) = false.
Proof.
  unfold has_char. revert s. induction n as [| n IH]; intros [| a r]; simpl; auto.
  intros H. apply orb_false_iff in H. destruct H as [Ha Hr].
  rewrite Ha. simpl. now apply IH.
Qed.

(** Removing the colons leaves none. *)
Lemma replace_colon_none (s : string) : has_char ":" (Py.replace ":" "" s) = false.
Proof.
  unfold Py.replace, has_char. induction s as [| a r IH]; [reflexivity |].
  cbn [Py.replace_from String.prefix].
  destruct (ascii_dec ":" a) as [<- | Hne].
  - destruct r; exact IH.
  - cbn [list_ascii_of_string existsb]. rewrite IH.
    destruct (Ascii.eqb_spec ":" a) as [Heq | _]; [contradiction | reflexivity].
Qed.

(** Whatever the hardware gives is of the form [kiosk-] plus eight
    characters at most. *)
Lemma scan_links_shape (lines : list string) (id : string) :
  scan_links lines = inr (Some id) ->
  exists text, id = kiosk_id text /\ has_char ":" text = false.
Proof.
  induction lines as [| line rest IH]; simpl; [discriminate |].
  destruct (Py.contains "link/ether" line); [| exact IH].
  unfold mac_of_line. destruct (nth_error (Py.split line) 1) as [field |];
    [| discriminate].
  intros H. inversion H; subst id.
  exists (Py.replace ":" "" field). split; [reflexivity | apply replace_colon_none].
Qed.

Lemma hardware_id_shape (src : sources) (id : string) :
  hardware_id src = inr (Some id) -> exists text, id = kiosk_id text.
Proof.
  unfold hardware_id. destruct (machine_id_exists src).
  - destruct (machine_id_text src) as [e | text]; [discriminate |].
    intros H. inversion H. now exists (Py.strip text).
  - destruct (ip_link_show src) as [e | [code out]]; [discriminate |].
    destruct (code =? 0)%Z; [| discriminate].
    intros H. destruct (scan_links_shape _ id H) as [text [-> _]]. now exists text.
Qed.

(** X5.  Whatever the machine holds, the identity generated is [kiosk-]
    followed by eight characters at most, and at most one warning is
    logged on the way. *)
Theorem generate_device_id_shape (src : sources) :
  exists suffix,
    fst (generate_device_id src) = ("kiosk-" ++ suffix)%string
    /\ (String.length suffix <= 8)%nat
    /\ (length (snd (generate_device_id src)) <= 1)%nat.
Proof.
  unfold generate_device_id.
  destruct (hardware_id src) as [e | [id |]] eqn:Hh; simpl.
  - exists (String.substring 0 8 (uuid4_text src)).
    split; [reflexivity |]. split; [apply substring_short | lia].
  - destruct (hardware_id_shape src id Hh) as [text ->].
    exists (String.substring 0 8 text).
    split; [reflexivity |]. split; [apply substring_short | lia].
  - exists (String.substring 0 8 (uuid4_text src)).
    split; [reflexivity |]. split; [apply substring_short | lia].
Qed.

Lemma lstrip_blank (text : string) :
  forallb Py.is_space (list_ascii_of_string text) = true ->
  Py.lstrip text = EmptyString.
Proof.
  induction text as [| a r IH]; simpl; [reflexivity |].
  intros H. apply andb_true_iff in H. destruct H as [Ha Hr].
  rewrite Ha. now apply IH.
Qed.

(** X6.  A file /etc/machine-id that exists but holds only blanks (or
    nothing) is taken as it is: the identity is the bare prefix [kiosk-],
    the same on every such machine, and neither the MAC address nor the
    random fallback is consulted. *)
Theorem blank_machine_id_gives_bare_prefix (src : sources) (text : string) :
  machine_id_exists src = true ->
  machine_id_text src = inr text ->
  forallb Py.is_space (list_ascii_of_string text) = true ->
  generate_device_id src = ("kiosk-", []).
Proof.
  intros Hex Htext Hblank.
  unfold generate_device_id, hardware_id. rewrite Hex, Htext.
  unfold Py.strip. rewrite (lstrip_blank text Hblank). reflexivity.
Qed.

Lemma blank_machine_id_gives_bare_prefix_witness :
  generate_device_id
    {| machine_id_exists := true;
       machine_id_text := inr (String Telemetry.newline EmptyString);
       ip_link_show := ip_link_show wired_box;
       uuid4_text := uuid4_text wired_box |}
  = ("kiosk-", []).
Proof.
  apply (blank_machine_id_gives_bare_prefix _ (String Telemetry.newline EmptyString));
    reflexivity.
Defined.

(** X7.  Without /etc/machine-id, an identity taken from the hardware is
    built from the second field of the first [link/ether] line with its
    colons removed: it holds no colon. *)
Theorem mac_identity_has_no_colon (src : sources) (id : string) :
  machine_id_exists src = false ->
  hardware_id src = inr (Some id) ->
  has_char ":" id = false.
Proof.
  unfold hardware_id. intros ->.
  destruct (ip_link_show src) as [e | [code out]]; [discriminate |].
  destruct (code =? 0)%Z; [| discriminate].
  intros H. destruct (scan_links_shape _ id H) as [text [-> Hnone]].
  unfold kiosk_id. unfold has_char in *. simpl.
  now apply has_char_substring.
Qed.

Lemma mac_identity_has_no_colon_witness :
  hardware_id wired_box = inr (Some "kiosk-aabbccdd")
  /\ has_char ":" "kiosk-aabbccdd" = false.
Proof.
  split; [reflexivity |].
  apply (mac_identity_has_no_colon wired_box "kiosk-aabbccdd"); reflexivity.
Defined.

End IdentityFacts.


(** ** More on the dispatcher *)

(** X9.  Only an array can carry commands: when [commands] is a mapping
    (one command object sent without brackets, say), a string, a number, a
    boolean or null, no executor action is called, and the loop gets no
    further than its first element. *)
Theorem only_an_array_runs_commands (w : world) (commands : json) (s : agent) :
  (forall items, commands <> JArr items) ->
  exists evs,
    snd (process_commands w commands s) = after s evs
    /\ invocations evs = []
    /\ (length evs <= 1)%nat.
Proof.
  intros Hnot. unfold process_commands, bind, py_iter.
  destruct commands as [ | b | z | x | text | items | fields];
    try (exists []; simpl; rewrite after_nil; repeat split; lia).
  - destruct text as [| c rest].
    + exists []. simpl. rewrite after_nil. repeat split; lia.
    + exists [Dispatch (JStr (String c EmptyString))]. simpl. repeat split; lia.
  - exfalso. now apply (Hnot items).
  - destruct fields as [| [k v] rest].
    + exists []. simpl. rewrite after_nil. repeat split; lia.
    + exists [Dispatch (JStr k)]. simpl. repeat split; lia.
Qed.

Lemma only_an_array_runs_commands_witness :
  exists evs,
    snd (process_commands unreachable (JObj [("type", JStr "restart")]) kiosk)
    = after kiosk evs
    /\ invocations evs = []
    /\ (length evs <= 1)%nat.
Proof.
  apply (only_an_array_runs_commands unreachable (JObj [("type", JStr "restart")]) kiosk).
  intros items H. discriminate H.
Defined.

(** X10.  A batch whose elements are all mappings is seen through to its
    end, whatever the actions do short of hanging: every command is taken
    up in order, the action of each recognised kind is called, and
    [process_commands] returns normally. *)
Theorem batch_of_mappings_is_seen_through
  (w : world) (cmds : list json) (s : agent) :
  Forall (fun c => is_mapping c = true) cmds ->
  responsive w ->
  exists evs,
    process_commands w (JArr cmds) s = (Ret tt, after s evs)
    /\ dispatched evs = cmds
    /\ invocations evs = flat_map planned cmds.
Proof.
  intros Hmaps Hresp.
  destruct (dispatch_some w cmds s) as [chunks (Hs & Hchunks & Hfull)].
  destruct (Hfull Hmaps Hresp) as [Hret Hlen].
  rewrite Hlen, firstn_all in Hchunks.
  destruct (chunks_read cmds chunks Hchunks) as [Hd Hi].
  exists (concat chunks). split; [| split; assumption].
  unfold process_commands, bind, py_iter, ret.
  destruct (for_each (dispatch w) cmds s) as [r s1]; simpl in *.
  now subst r s1.
Qed.

Lemma batch_of_mappings_is_seen_through_witness :
  responsive failing_reboot
  /\ exists evs,
       process_commands failing_reboot (JArr rough_batch) kiosk = (Ret tt, after kiosk evs)
       /\ dispatched evs = rough_batch
       /\ invocations evs = flat_map planned rough_batch.
Proof.
  assert (H : responsive failing_reboot).
  { intros t argv. right. exists OSError. reflexivity. }
  split; [exact H |].
  apply (batch_of_mappings_is_seen_through failing_reboot rough_batch kiosk);
    [repeat constructor | exact H].
Defined.

(** X11.  [install_app] and [uninstall_app] need a mapping as [data]:
    with anything else the action is called, fails on reading the name,
    and the dispatcher logs the failure under the kind of the command and
    returns normally. *)
Theorem install_needs_a_mapping
  (w : world) (fields : dict) (kind : string) (data : json) (s : agent) :
  kind = "install_app" \/ kind = "uninstall_app" ->
  Py.lookup "type" fields = Some (JStr kind) ->
  Py.lookup "data" fields = Some data ->
  is_mapping data = false ->
  exists a,
    planned (JObj fields) = [a]
    /\ dispatch w (JObj fields) s
       = (Ret tt,
          after s [Dispatch (JObj fields);
                   Log INFO (ProcessingCommand (JStr kind));
                   Invoke a;
                   Log ERROR (CommandFailed (JStr kind) AttributeError)]).
Proof.
  intros Hkind Hty Hdata Hm.
  unfold planned, dispatch, route, bind, try_except, py_get, ret.
  rewrite Hty, Hdata.
  destruct Hkind as [-> | ->]; simpl;
    eexists; (split; [reflexivity |]);
    unfold install_application, uninstall_application, bind, py_get, log, record,
      raise;
    destruct data; simpl in *; try discriminate Hm; try rewrite Hty; simpl;
    f_equal; same_agent.
Qed.

Lemma install_needs_a_mapping_witness :
  exists a,
    planned (JObj [("type", JStr "install_app"); ("data", JStr "editor")]) = [a]
    /\ dispatch unreachable (JObj [("type", JStr "install_app"); ("data", JStr "editor")])
         kiosk
       = (Ret tt,
          after kiosk
            [Dispatch (JObj [("type", JStr "install_app"); ("data", JStr "editor")]);
             Log INFO (ProcessingCommand (JStr "install_app"));
             Invoke a;
             Log ERROR (CommandFailed (JStr "install_app") AttributeError)]).
Proof.
  apply (install_needs_a_mapping unreachable
           [("type", JStr "install_app"); ("data", JStr "editor")]
           "install_app" (JStr "editor") kiosk);
    try reflexivity.
  left. reflexivity.
Defined.

(** ** More on the heartbeat *)

(** X12.  Neither [send_heartbeat] nor [connect_websocket] ever raises
    an error of the [Exception] family: whatever goes wrong inside is
    logged there. *)
Theorem channel_bodies_keep_their_errors (w : world) (s : agent) (e : error) :
  fst (send_heartbeat w s) <> Raise (Exc e)
  /\ fst (connect_websocket w s) <> Raise (Exc e).
Proof.
  split.
  - unfold send_heartbeat, bind, attribute.
    destruct (negb (self_session s)); [discriminate |].
    apply logged_never_raises. intros e' s'. simpl. discriminate.
  - unfold connect_websocket. apply logged_never_raises.
    intros e' s'. simpl. discriminate.
Qed.



(** X14.  As long as no session is set, the heartbeat loop sends
    nothing and logs nothing: each turn is one sleep of [interval]. *)
Theorem heartbeat_loop_without_session_only_sleeps
  (w : world) (interval : Z) (turns : nat) :
  (forall t, running_at w t = true) ->
  (forall t secs, asyncio_sleep w t secs = Ret tt) ->
  forall s,
    self_session s = false ->
    heartbeat_loop w interval turns s
    = (Ret Pending, after s (repeat (Sleep interval) turns)).
Proof.
  intros Hrun Hsleep. induction turns as [| n IH]; intros s Hs.
  - simpl. now rewrite after_nil.
  - assert (Hidle : send_heartbeat w s = (Ret tt, s)).
    { unfold send_heartbeat, bind, attribute. now rewrite Hs. }
    cbn [heartbeat_loop repeat]. unfold running. rewrite Hrun.
    unfold bind. rewrite Hidle. unfold sleep. rewrite call_after, Hsleep.
    rewrite (IH (after s [Sleep interval]) Hs), after_after. reflexivity.
Qed.

Lemma heartbeat_loop_without_session_only_sleeps_witness :
  self_session offline = false
  /\ heartbeat_loop unreachable 60 3 offline
     = (Ret Pending, after offline [Sleep 60; Sleep 60; Sleep 60]).
Proof.
  split; [reflexivity |].
  apply (heartbeat_loop_without_session_only_sleeps unreachable 60 3);
    reflexivity.
Defined.

Lemma heartbeat_loop_keeps_ticking_witness :
  exists evs,
    heartbeat_loop unreachable 60 3 kiosk = (Ret Pending, after kiosk evs)
    /\ sleeps evs = [60; 60; 60]%Z.
Proof.
  apply (heartbeat_loop_keeps_ticking unreachable "http://srv" 60 3);
    try reflexivity.
  intros t url body hs. apply transport_error.
Defined.

Lemma websocket_loop_keeps_trying_witness :
  fst (websocket_loop unreachable 5 kiosk) = Ret Pending.
Proof.
  apply (websocket_loop_keeps_trying unreachable "http://srv" 5);
    try reflexivity.
  intros t url hs. exists OSError. reflexivity.
Defined.

(** X15.  The heartbeat loop knows one delay only: whatever happens,
    every sleep it takes lasts [interval]. *)
Theorem heartbeat_loop_only_sleeps_interval
  (w : world) (interval : Z) (turns : nat) (s : agent) :
  exists evs,
    snd (heartbeat_loop w interval turns s) = after s evs
    /\ Forall (fun seconds => seconds = interval) (sleeps evs).
Proof.
  revert s. induction turns as [| n IH]; intros s.
  - exists []. simpl. rewrite after_nil. split; [reflexivity | constructor].
  - cbn [heartbeat_loop].
    destruct (running w s);
      [| exists []; simpl; rewrite after_nil; split; [reflexivity | constructor]].
    destruct (emits_send_heartbeat w s) as [evs1 [H1 K1]].
    assert (Q1 : Forall (fun seconds => seconds = interval) (sleeps evs1)).
    { rewrite (no_sleep heartbeat_kinds evs1 K1);
        [constructor | unfold heartbeat_kinds, dispatch_kinds; kind_absent]. }
    assert (Hhandler : forall e evs0,
               Forall (fun seconds => seconds = interval) (sleeps evs0) ->
               exists evs,
                 snd (match (log ERROR (HeartbeatLoopError e) ;; sleep w interval)
                              (after s evs0) with
                      | (Ret _, s2) => heartbeat_loop w interval n s2
                      | (Raise x, s2) => (Raise x, s2)
                      | (Blocks, s2) => (Blocks, s2)
                      end) = after s evs
                 /\ Forall (fun seconds => seconds = interval) (sleeps evs)).
    { intros e evs0 Q0. unfold bind, log, sleep.
      rewrite record_after, call_after, !after_after.
      assert (Q : Forall (fun seconds => seconds = interval)
                    (sleeps ((evs0 ++ [Log ERROR (HeartbeatLoopError e)])
                               ++ [Sleep interval]))).
      { rewrite !sleeps_app. simpl. rewrite app_nil_r.
        apply Forall_app; split; [exact Q0 | repeat constructor]. }
      destruct (asyncio_sleep w _ interval) as [[] | x | ];
        try (eexists; split; [reflexivity | exact Q]).
      destruct (IH (after s ((evs0 ++ [Log ERROR (HeartbeatLoopError e)])
                               ++ [Sleep interval]))) as [evs2 [H2 F2]].
      eexists. rewrite H2, after_after. split; [reflexivity |].
      rewrite sleeps_app. apply Forall_app; split; assumption. }
    unfold bind at 1.
    destruct (send_heartbeat w s) as [r1 s1]; simpl in H1; subst s1.
    destruct r1 as [[] | [e | | | ] | ];
      try (exists evs1; split; [reflexivity | exact Q1]).
    + unfold sleep. rewrite call_after, after_after.
      assert (Q : Forall (fun seconds => seconds = interval)
                    (sleeps (evs1 ++ [Sleep interval]))).
      { rewrite sleeps_app. apply Forall_app; split; [exact Q1 | repeat constructor]. }
      destruct (asyncio_sleep w _ interval) as [[] | [e | | | ] | ];
        try (eexists; split; [reflexivity | exact Q]).
      * destruct (IH (after s (evs1 ++ [Sleep interval]))) as [evs2 [H2 F2]].
        eexists. rewrite H2, after_after. split; [reflexivity |].
        rewrite sleeps_app. apply Forall_app; split; assumption.
      * apply (Hhandler e (evs1 ++ [Sleep interval]) Q).
    + apply (Hhandler e evs1 Q1).
Qed.

(** ** More on the command stream *)

(** X16.  A message that is a mapping whose [type] is neither
    [command] nor [ping] (or is missing) is answered with one warning and
    nothing else: nothing is sent, dispatched or closed. *)
Theorem unknown_stream_message_only_warns (w : world) (fields : dict) (s : agent) :
  let kind := match Py.lookup "type" fields with Some k => k | None => JNull end in
  kind <> JStr "command" ->
  kind <> JStr "ping" ->
  on_message w (Parsed (JObj fields)) s
  = (Ret tt, after s [Log WARNING (UnknownStreamMessage kind)]).
Proof.
  intros kind Hc Hp.
  assert (Ec : Py.eq_str kind "command" = false).
  { destruct (Py.eq_str kind "command") eqn:E; [| reflexivity].
    apply eq_str_true in E. contradiction. }
  assert (Ep : Py.eq_str kind "ping" = false).
  { destruct (Py.eq_str kind "ping") eqn:E; [| reflexivity].
    apply eq_str_true in E. contradiction. }
  unfold on_message, try_except, bind, json_loads, handle_websocket_message, bind,
    py_get, ret.
  fold kind. rewrite Ec, Ep. reflexivity.
Qed.

Lemma unknown_stream_message_only_warns_witness :
  on_message unreachable (Parsed (JObj [("type", JStr "hello")])) kiosk_online
  = (Ret tt, after kiosk_online [Log WARNING (UnknownStreamMessage (JStr "hello"))]).
Proof.
  apply (unknown_stream_message_only_warns unreachable [("type", JStr "hello")]
           kiosk_online);
    discriminate.
Defined.

(** A command frame is handled by dispatching its payload. *)
Lemma on_message_command (w : world) (fields : dict) (s : agent) :
  Py.lookup "type" fields = Some (JStr "command") ->
  on_message w (Parsed (JObj fields)) s
  = try_except
      (dispatch w (match Py.lookup "data" fields with Some d => d | None => JObj [] end))
      (fun e => log ERROR (StreamMessageFailed e)) s.
Proof.
  intros Hty.
  unfold on_message, try_except, bind, json_loads, handle_websocket_message, bind,
    py_get, ret, process_commands, bind, py_iter, ret.
  rewrite Hty. simpl. unfold bind, ret.
  destruct (dispatch w _ s) as [[[] | [e | | | ] | ] s1]; reflexivity.
Qed.

(** X17.  A frame whose [type] is [command] hands exactly one command
    to the dispatcher, its [data] (an empty mapping when there is none),
    and through it calls the action planned for that command; nothing is
    sent on the stream. *)
Theorem command_frame_dispatches_its_data (w : world) (fields : dict) (s : agent) :
  Py.lookup "type" fields = Some (JStr "command") ->
  exists evs,
    snd (on_message w (Parsed (JObj fields)) s) = after s evs
    /\ dispatched evs
       = [match Py.lookup "data" fields with Some d => d | None => JObj [] end]
    /\ invocations evs
       = planned (match Py.lookup "data" fields with Some d => d | None => JObj [] end).
Proof.
  intros Hty. rewrite (on_message_command w fields s Hty).
  set (data := match Py.lookup "data" fields with Some d => d | None => JObj [] end).
  destruct (dispatch_chunk w data s) as [chunk (Hs & [Hd Hi] & _)].
  unfold try_except.
  destruct (dispatch w data s) as [[[] | [e | | | ] | ] s1]; simpl in Hs; subst s1;
    try (exists chunk; simpl; repeat split; assumption).
  exists (chunk ++ [Log ERROR (StreamMessageFailed e)]).
  split; [same_agent |].
  rewrite dispatched_app, invocations_app, Hd, Hi. simpl.
  now rewrite app_nil_r.
Qed.

Lemma command_frame_dispatches_its_data_witness :
  exists evs,
    snd (on_message unreachable (Parsed restart_message) kiosk_online)
    = after kiosk_online evs
    /\ dispatched evs = [JObj [("type", JStr "restart")]]
    /\ invocations evs = [RestartSystem].
Proof.
  apply (command_frame_dispatches_its_data unreachable
           [("type", JStr "command"); ("data", JObj [("type", JStr "restart")])]
           kiosk_online).
  reflexivity.
Defined.

(** What one frame makes the agent send. *)
Lemma on_message_sends (w : world) (message : frame) (c : connection) (s : agent) :
  self_websocket s = Some c ->
  exists evs,
    snd (on_message w message s) = after s evs
    /\ sends evs = if is_ping message then [(c, pong)] else [].
Proof.
  intros Hsock. destruct message as [raw | v].
  - exists [Log ERROR (StreamMessageFailed JSONDecodeError)]. split; reflexivity.
  - destruct v as [ | b | z | x | text | items | fields];
      try (exists [Log ERROR (StreamMessageFailed AttributeError)]; split; reflexivity).
    simpl is_ping.
    destruct (Py.lookup "type" fields) as [k |] eqn:Hty.
    + destruct (Py.eq_str k "ping") eqn:Ep.
      * apply eq_str_true in Ep. subst k.
        destruct (on_message_ping w fields c s Hty Hsock) as [tail [Hh Hlogs]].
        destruct (only_logs_quiet tail Hlogs) as (Hs & _ & _).
        exists (StreamSend c pong :: tail). split; [exact Hh |].
        simpl. now rewrite Hs.
      * destruct (Py.eq_str k "command") eqn:Ec.
        -- apply eq_str_true in Ec. subst k.
           rewrite (on_message_command w fields s Hty).
           assert (He : emits dispatch_kinds
                          (try_except
                             (dispatch w (match Py.lookup "data" fields with
                                          | Some d => d
                                          | None => JObj []
                                          end))
                             (fun e => log ERROR (StreamMessageFailed e)))).
           { apply emits_try_except; [apply emits_dispatch |].
             intros e. apply emits_log. simpl; tauto. }
           destruct (He s) as [evs [Hh Hk]]. exists evs. split; [exact Hh |].
           apply (no_send dispatch_kinds); [exact Hk |].
           unfold dispatch_kinds. kind_absent.
        -- exists [Log WARNING (UnknownStreamMessage k)].
           unfold on_message, try_except, bind, json_loads, handle_websocket_message,
             bind, py_get, ret.
           rewrite Hty, Ec, Ep. split; reflexivity.
    + exists [Log WARNING (UnknownStreamMessage JNull)].
      unfold on_message, try_except, bind, json_loads, handle_websocket_message,
        bind, py_get, ret.
      rewrite Hty. split; reflexivity.
Qed.

Lemma for_each_pongs (w : world) (c : connection) (frames : list frame) :
  forall s,
    self_websocket s = Some c ->
    exists evs k,
      snd (for_each (on_message w) frames s) = after s evs
      /\ sends evs = repeat (c, pong) k
      /\ (k <= length (filter is_ping frames))%nat
      /\ (fst (for_each (on_message w) frames s) = Ret tt ->
          k = length (filter is_ping frames)).
Proof.
  induction frames as [| f rest IH]; intros s Hsock.
  - exists [], 0%nat. simpl. rewrite after_nil. repeat split; lia.
  - destruct (on_message_sends w f c s Hsock) as [evs1 [H1 S1]].
    cbn [for_each filter]. unfold bind.
    destruct (on_message w f s) as [r s1]; simpl in H1; subst s1.
    destruct r as [[] | x | ].
    + destruct (IH (after s evs1) Hsock) as (evs2 & k2 & H2 & S2 & L2 & E2).
      destruct (is_ping f).
      * exists (evs1 ++ evs2), (S k2). rewrite H2, after_after, sends_app, S1, S2.
        simpl. repeat split; try lia. intros Hr. rewrite (E2 Hr). reflexivity.
      * exists (evs1 ++ evs2), k2. rewrite H2, after_after, sends_app, S1, S2.
        simpl. repeat split; try lia. exact E2.
    + destruct (is_ping f).
      * exists evs1, 1%nat. simpl. repeat split; try assumption; try lia.
        intros H; discriminate H.
      * exists evs1, 0%nat. simpl. repeat split; try assumption; try lia.
        intros H; discriminate H.
    + destruct (is_ping f).
      * exists evs1, 1%nat. simpl. repeat split; try assumption; try lia.
        intros H; discriminate H.
      * exists evs1, 0%nat. simpl. repeat split; try assumption; try lia.
        intros H; discriminate H.
Qed.

(** X18.  On an open connection the receive loop sends nothing but
    pongs, on that connection, and never more than one for each ping frame
    received; when it gets through all the frames, it has sent exactly one
    pong per ping. *)
Theorem receive_sends_one_pong_per_ping
  (w : world) (frames : list frame) (ending : outcome unit) (c : connection)
  (s : agent) :
  self_websocket s = Some c ->
  exists evs k,
    snd (receive w frames ending s) = after s evs
    /\ sends evs = repeat (c, pong) k
    /\ (k <= length (filter is_ping frames))%nat
    /\ (fst (for_each (on_message w) frames s) = Ret tt ->
        k = length (filter is_ping frames)).
Proof.
  intros Hsock.
  destruct (for_each_pongs w c frames s Hsock) as (evs & k & Hs & Hsends & Hle & Hall).
  exists evs, k. split; [| repeat split; assumption].
  unfold receive, bind, await.
  destruct (for_each (on_message w) frames s) as [[[] | x | ] s1]; exact Hs.
Qed.

Lemma receive_sends_one_pong_per_ping_witness :
  exists evs k,
    snd (receive unreachable [Parsed ping_message; Garbled "??"; Parsed ping_message]
           (Ret tt) kiosk_online)
    = after kiosk_online evs
    /\ sends evs = repeat (7%nat, pong) k
    /\ (k <= 2)%nat
    /\ (fst (for_each (on_message unreachable)
               [Parsed ping_message; Garbled "??"; Parsed ping_message] kiosk_online)
        = Ret tt ->
        k = 2%nat).
Proof.
  apply (receive_sends_one_pong_per_ping unreachable
           [Parsed ping_message; Garbled "??"; Parsed ping_message] (Ret tt) 7%nat
           kiosk_online).
  reflexivity.
Defined.

(** A connection that opens: the agent notes it, logs it, reads the
    stream, and closes the connection unless the reading hangs. *)
Lemma connect_websocket_opened (w : world) (s : agent) (u : string) (st : stream) :
  server_url (self_config s) = Present u ->
  readable (server_api_key (self_config s)) ->
  (forall url hs, websockets_connect w (now s) url hs = Ret st) ->
  let url := websocket_url u (self_device_id s) in
  let hs := bearer (configured_or server_api_key "" s) in
  let s2 := after (online s (link st)) [StreamOpen url hs; Log INFO StreamConnected] in
  connect_websocket w s
  = match receive w (inbound st) (ending st) s2 with
    | (Blocks, s3) => (Blocks, s3)
    | (Raise (Exc e), s3) =>
        (Ret tt, after s3 [StreamClose (link st); Log ERROR (StreamFailed e)])
    | (r, s3) => (r, after s3 [StreamClose (link st)])
    end.
Proof.
  intros Hu Hread Hconn url hs s2.
  assert (Hs2 : (set_websocket (link st) ;; log INFO StreamConnected ;;
                 receive w (inbound st) (ending st))
                  (after s [StreamOpen url hs])
                = receive w (inbound st) (ending st) s2).
  { unfold bind at 1. unfold set_websocket. unfold bind at 1. unfold log.
    rewrite record_after. cbv beta iota. f_equal. unfold s2, online, after. simpl.
    now rewrite <- app_assoc. }
  unfold connect_websocket, try_except, bind at 1, config_get. rewrite Hu.
  unfold url, hs, configured_or in *.
  unfold bind at 1, config_get_fallback.
  destruct (server_api_key (self_config s)) as [ | | key];
    try (exfalso; now apply Hread);
    unfold bind at 1, attribute; unfold bind at 1; rewrite call_after; cbv beta;
    rewrite Hconn; unfold async_with; rewrite Hs2;
    destruct (receive w (inbound st) (ending st) s2) as [[[] | [e | | | ] | ] s3];
    unfold log; try rewrite !record_after; cbn [snd];
    try rewrite !after_after; reflexivity.
Qed.

(** X19.  A connection that opens (the address and the key being read)
    is closed again exactly once, however the reading of the stream ends,
    as long as it ends; one attempt is made, to the stream address with
    the bearer authorization when a key is configured; and
    [self.websocket] still names the closed connection afterwards. *)
Theorem opened_connection_is_closed_once
  (w : world) (s : agent) (u : string) (st : stream) :
  server_url (self_config s) = Present u ->
  readable (server_api_key (self_config s)) ->
  (forall url hs, websockets_connect w (now s) url hs = Ret st) ->
  fst (connect_websocket w s) <> Blocks ->
  exists evs,
    history (snd (connect_websocket w s)) = history s ++ evs
    /\ opens evs = [(websocket_url u (self_device_id s),
                     bearer (configured_or server_api_key "" s))]
    /\ closes evs = [link st]
    /\ self_websocket (snd (connect_websocket w s)) = Some (link st).
Proof.
  intros Hu Hread Hconn.
  rewrite (connect_websocket_opened w s u st Hu Hread Hconn). cbv zeta.
  set (url := websocket_url u (self_device_id s)).
  set (hs := bearer (configured_or server_api_key "" s)).
  set (s2 := after (online s (link st)) [StreamOpen url hs; Log INFO StreamConnected]).
  destruct (emits_receive w (inbound st) (ending st) s2) as [evs [Hh Hk]].
  assert (Hc : closes evs = [])
    by (apply (no_close message_kinds); [exact Hk |];
        unfold message_kinds, dispatch_kinds; kind_absent).
  assert (Ho : opens evs = [])
    by (apply (no_open message_kinds); [exact Hk |];
        unfold message_kinds, dispatch_kinds; kind_absent).
  destruct (receive w (inbound st) (ending st) s2) as [[[] | [e | | | ] | ] s3];
    simpl in Hh; subst s3; intros Hnb; try (exfalso; now apply Hnb);
    [ exists (([StreamOpen url hs; Log INFO StreamConnected] ++ evs)
                ++ [StreamClose (link st)])
    | exists (([StreamOpen url hs; Log INFO StreamConnected] ++ evs)
                ++ [StreamClose (link st); Log ERROR (StreamFailed e)])
    | exists (([StreamOpen url hs; Log INFO StreamConnected] ++ evs)
                ++ [StreamClose (link st)])
    | exists (([StreamOpen url hs; Log INFO StreamConnected] ++ evs)
                ++ [StreamClose (link st)])
    | exists (([StreamOpen url hs; Log INFO StreamConnected] ++ evs)
                ++ [StreamClose (link st)]) ];
    (split; [simpl; now rewrite <- !app_assoc |]);
    rewrite !opens_app, !closes_app, Ho, Hc; repeat split.
Qed.

Lemma opened_connection_is_closed_once_witness :
  exists evs,
    history (snd (connect_websocket serving kiosk)) = history kiosk ++ evs
    /\ opens evs = [("ws://srv/ws/devices/kiosk-1", [])]
    /\ closes evs = [7%nat]
    /\ self_websocket (snd (connect_websocket serving kiosk)) = Some 7%nat.
Proof.
  apply (opened_connection_is_closed_once serving kiosk "http://srv" short_stream);
    try reflexivity; discriminate.
Defined.

(** ** The stream address *)

(** Where the old text does not occur, replacing it changes nothing. *)
Lemma replace_absent (old new s : string) :
  occurs old s = false -> Py.replace old new s = s.
Proof.
  unfold Py.replace. induction s as [| c r IH]; [reflexivity |].
  cbn [occurs Py.replace_from]. intros H.
  apply orb_false_iff in H. destruct H as [Hp Hr].
  rewrite Hp, (IH Hr). reflexivity.
Qed.

Lemma replace_http (rest : string) :
  Py.replace "http://" "ws://" ("http://" ++ rest)
  = ("ws://" ++ Py.replace "http://" "ws://" rest)%string.
Proof. destruct rest; reflexivity. Qed.

Lemma replace_https_first (rest : string) :
  Py.replace "http://" "ws://" ("https://" ++ rest)
  = ("https://" ++ Py.replace "http://" "ws://" rest)%string.
Proof. destruct rest; reflexivity. Qed.

Lemma replace_https (rest : string) :
  Py.replace "https://" "wss://" ("https://" ++ rest)
  = ("wss://" ++ Py.replace "https://" "wss://" rest)%string.
Proof. destruct rest; reflexivity. Qed.

Lemma replace_ws_second (rest : string) :
  Py.replace "https://" "wss://" ("ws://" ++ rest)
  = ("ws://" ++ Py.replace "https://" "wss://" rest)%string.
Proof. destruct rest; reflexivity. Qed.

(** X20.  The stream address keeps the server address and changes its
    scheme only, [http] to [ws] and [https] to [wss], then adds
    [/ws/devices/] and the device identity, provided no further
    [http://] or [https://] occurs in the rest of the address; an address
    in which neither occurs at all is used as it is. *)
Theorem websocket_url_changes_scheme_only (rest device_id : string) :
  occurs "http://" rest = false ->
  occurs "https://" rest = false ->
  websocket_url ("http://" ++ rest) device_id
  = ("ws://" ++ rest ++ "/ws/devices/" ++ device_id)%string
  /\ websocket_url ("https://" ++ rest) device_id
     = ("wss://" ++ rest ++ "/ws/devices/" ++ device_id)%string
  /\ websocket_url rest device_id = (rest ++ "/ws/devices/" ++ device_id)%string.
Proof.
  intros Hhttp Hhttps. unfold websocket_url.
  rewrite replace_http, replace_https_first, (replace_absent _ _ rest Hhttp).
  rewrite replace_ws_second, replace_https, (replace_absent _ _ rest Hhttps).
  repeat split; reflexivity.
Qed.

Lemma websocket_url_changes_scheme_only_witness :
  websocket_url "http://kiosks.example:8443/base" "kiosk-1"
  = "ws://kiosks.example:8443/base/ws/devices/kiosk-1"
  /\ websocket_url "https://kiosks.example:8443/base" "kiosk-1"
     = "wss://kiosks.example:8443/base/ws/devices/kiosk-1"
  /\ websocket_url "kiosks.example:8443/base" "kiosk-1"
     = "kiosks.example:8443/base/ws/devices/kiosk-1".
Proof.
  apply (websocket_url_changes_scheme_only "kiosks.example:8443/base" "kiosk-1");
    reflexivity.
Defined.
